(** * Resilient inference orchestration: validation, retry, fallback, ensemble

    A shallow embedding of the classifier wrappers of [src/patterns.py]
    (ValidatedTicketClassifier, RetryTicketClassifier,
    FallbackTicketClassifier, EnsembleTicketClassifier) and of the reward
    function of [scripts/modules.py] (RefinedTicketClassifier), with the
    vocabularies of [data.py]; and, further on, of the simple modules of
    [modules.py], the metrics of [scripts/metrics.py] and [main.py],
    [evaluate_module] of [src/evaluation.py] and [get_safe_reasoning] of
    [fixes.py].

    Conventions of the embedding:
    - a Python [str] is the list of its Unicode code points;
    - a call that may raise returns an [outcome];
    - the language model behind a predictor is external: a predictor is
      given by the outcome of each of its invocations;
    - [print] and [time.sleep] are recorded in a trace of events;
    - Python floats are read as exact rationals ([Q]). *)

From Stdlib Require Import List ZArith NArith QArith Lia Bool String Ascii.
From Stdlib Require Import DecimalString.
Import ListNotations.

Close Scope Q_scope.
Open Scope list_scope.

(** ** Python strings *)

Module PyStr.

Local Open Scope N_scope.

(** A code point, and a string as Python sees it. *)
Definition char := N.
Definition str := list char.

(** An ASCII literal of the source, as code points. *)
Definition lit (s : string) : str :=
  List.map N_of_ascii (list_ascii_of_string s).

Fixpoint eqb (a b : str) : bool :=
  match a, b with
  | [], [] => true
  | x :: a', y :: b' => N.eqb x y && eqb a' b'
  | _, _ => false
  end.

Definition between (lo hi c : char) : bool := N.leb lo c && N.leb c hi.

(** [str.isspace] on one code point: the table of CPython's
    [_PyUnicode_IsWhitespace]. *)
Definition isspace (c : char) : bool :=
  between 9 13 c || between 28 32 c || N.eqb c 133 || N.eqb c 160
  || N.eqb c 5760 || between 8192 8202 c || N.eqb c 8232 || N.eqb c 8233
  || N.eqb c 8239 || N.eqb c 8287 || N.eqb c 12288.

Fixpoint lstrip (s : str) : str :=
  match s with
  | c :: s' => if isspace c then lstrip s' else s
  | [] => []
  end.

Definition rstrip (s : str) : str := rev (lstrip (rev s)).

(** [s.strip()] *)
Definition strip (s : str) : str := rstrip (lstrip s).

(** Lowercase of one code point. Basic Latin and the Latin-1 Supplement
    (every code point of the vocabularies and of the keywords of the
    source lies there) follow the Unicode tables: A-Z and U+00C0-U+00DE
    except the multiplication sign U+00D7 move up by 32. Code points
    above U+00FF are left as they are. *)
Definition lower_char (c : char) : char :=
  if between 65 90 c then c + 32
  else if between 192 222 c && negb (N.eqb c 215) then c + 32
  else c.

(** [s.lower()] *)
Definition lower (s : str) : str := List.map lower_char s.

Fixpoint startswith (p s : str) : bool :=
  match p, s with
  | [], _ => true
  | x :: p', y :: s' => N.eqb x y && startswith p' s'
  | _ :: _, [] => false
  end.

(** [sub in s] *)
Fixpoint contains (sub s : str) : bool :=
  startswith sub s ||
  match s with
  | [] => false
  | _ :: s' => contains sub s'
  end.

(** [x in xs] for a set or a list of strings. *)
Definition mem (x : str) (xs : list str) : bool := existsb (eqb x) xs.

(** [str(n)] for a Python [int]. *)
Definition of_Z (n : Z) : str := lit (NilZero.string_of_int (Z.to_int n)).

(** What [sub in s] means: [s] is [pre ++ sub ++ suf]. *)
Definition substring (sub s : str) : Prop :=
  exists pre suf, s = pre ++ sub ++ suf.

End PyStr.

Import PyStr.

(** ** Exceptions, outcomes and the trace of effects *)

Module Runtime.

(** The exceptions the wrappers raise or meet, all subclasses of Python's
    [Exception]; a failing predictor raises any of them. *)
Inductive exn :=
| Exception (msg : str)
| ValueError (msg : str)
| StopIteration
| IndexError (msg : str)
| ZeroDivisionError (msg : str)
| OverflowError (msg : str).

(** [str(e)], what an f-string prints for [{e}]. *)
Definition str_of_exn (e : exn) : str :=
  match e with
  | Exception msg | ValueError msg | IndexError msg | ZeroDivisionError msg
  | OverflowError msg => msg
  | StopIteration => []
  end.

Inductive outcome (A : Type) :=
| Return (a : A)
| Raise (e : exn).
Arguments Return {A} a.
Arguments Raise {A} e.

(** What [classifier(ticket=ticket)] gives back: an object with the fields
    [category] and [priority]. *)
Record result := { result_category : str; result_priority : str }.

(** A predictor, by the outcome of one invocation on a ticket. *)
Definition predictor := str -> outcome result.

(** The lines the wrappers print, by the values their f-strings format. *)
Inductive line :=
| attempt_failed (attempt : Z) (e : exn)
| retrying_in (delay : Q)
| primary_model_failed (e : exn)
| switching_to_fallback
| error_with_a_model (e : exn).

Inductive event :=
| Invoke (ticket : str) (answer : outcome result)
| Print (l : line)
| Sleep (seconds : Q).

(** A computation: the events it performed, in order, and how it ended. *)
Definition comp (A : Type) : Type := list event * outcome A.

Definition ret {A} (a : A) : comp A := ([], Return a).
Definition raise {A} (e : exn) : comp A := ([], Raise e).
Definition lift {A} (o : outcome A) : comp A := ([], o).

Definition bind {A B} (c : comp A) (k : A -> comp B) : comp B :=
  match c with
  | (tr, Return a) => let (tr', r) := k a in (tr ++ tr', r)
  | (tr, Raise e) => (tr, Raise e)
  end.

(** [try: c  except Exception as e: h e] *)
Definition try_except {A} (c : comp A) (h : exn -> comp A) : comp A :=
  match c with
  | (tr, Raise e) => let (tr', r) := h e in (tr ++ tr', r)
  | (tr, Return a) => (tr, Return a)
  end.

Definition invoke (p : predictor) (ticket : str) : comp result :=
  ([Invoke ticket (p ticket)], p ticket).

Definition print (l : line) : comp unit := ([Print l], Return tt).

(** [time.sleep(seconds)]: a negative length is refused. The longest wait
    the clock of the platform takes is not modelled. *)
Definition time_sleep (seconds : Q) : comp unit :=
  if Qle_bool 0 seconds then ([Sleep seconds], Return tt)
  else raise (ValueError (lit "sleep length must be non-negative")).

Definition and_then {A B} (o : outcome A) (k : A -> outcome B) : outcome B :=
  match o with
  | Return a => k a
  | Raise e => Raise e
  end.

(** The least magnitude of an [int] that has no [float]: the integers from
    [2^1024 - 2^970] on round to [2^1024], above the largest double. *)
Definition float_overflow : Z := 2 ^ 1024 - 2 ^ 970.

(** [d * n] for a [float] [d] and an [int] [n]: the integer is converted to
    a [float] first, and one too large for it raises. The product itself is
    kept exact. *)
Definition float_times_int (d : Q) (n : Z) : outcome Q :=
  if (float_overflow <=? Z.abs n)%Z
  then Raise (OverflowError (lit "int too large to convert to float"))
  else Return (d * inject_Z n)%Q.

(** [next(generator)] over the elements a generator yields. *)
Definition next {A} (yielded : list A) : outcome A :=
  match yielded with
  | x :: _ => Return x
  | [] => Raise StopIteration
  end.

(** [next(generator, default)] *)
Definition next_default {A} (yielded : list A) (default : A) : A :=
  match yielded with
  | x :: _ => x
  | [] => default
  end.

End Runtime.

Import Runtime.

Notation "x <- c ;; k" := (bind c (fun x => k))
  (at level 61, c at next level, right associativity).
Notation "' p <- c ;; k" := (bind c (fun p => k))
  (at level 61, p pattern, c at next level, right associativity).
Notation "c ;;; k" := (bind c (fun _ => k))
  (at level 61, right associativity).
Notation "x <~ o ;; k" := (and_then o (fun x => k))
  (at level 61, o at next level, right associativity).
Notation "' p <~ o ;; k" := (and_then o (fun p => k))
  (at level 61, p pattern, o at next level, right associativity).

(** ** data.py *)

Module Data.

Definition CATEGORIES : list str :=
  [lit "Hardware"; lit "Software"; lit "Network"; lit "Application";
   lit "Infrastructure"; lit "Account"; lit "Email"; lit "Peripherals"].

Definition PRIORITIES : list str :=
  [lit "Low"; lit "Medium"; lit "High"; lit "Urgent"; lit "Critical"].

End Data.

Import Data.

(** ** src/patterns.py *)

(** [dspy.Prediction(category=..., priority=..., ...)]: the two fields of a
    classification and the annotations a wrapper adds. *)
Record Prediction := {
  category : str;
  priority : str;
  is_valid : option bool;
  attempts : option Z;
  model_used : option str;
  category_confidence : option Q;
  priority_confidence : option Q;
  num_models : option Z }.

Module ValidatedTicketClassifier.

(** [set(cat.lower() for cat in CATEGORIES)], used for membership only. *)
Definition valid_categories : list str := map lower CATEGORIES.
Definition valid_priorities : list str := map lower PRIORITIES.

(** The two accented keywords of the fuzzy matching. *)
Definition kw_mater : str := lit "mat" ++ [233%N] ++ lit "r".
Definition kw_reseau : str := lit "r" ++ [233%N] ++ lit "seau".

Definition validate_and_correct (category priority : str)
  : outcome (str * str * bool) :=
  let category_lower := lower (strip category) in
  let priority_lower := lower (strip priority) in
  let is_valid := true in
  (* Validate category *)
  '(category, is_valid) <~
    (if negb (mem category_lower valid_categories) then
       (* Try fuzzy matching *)
       if contains (lit "hard") category_lower || contains kw_mater category_lower
       then Return (lit "Hardware", is_valid)
       else if contains (lit "soft") category_lower || contains (lit "logic") category_lower
       then Return (lit "Software", is_valid)
       else if contains kw_reseau category_lower || contains (lit "network") category_lower
       then Return (lit "Network", is_valid)
       else if contains (lit "compte") category_lower || contains (lit "account") category_lower
       then Return (lit "Account", is_valid)
       else Return (lit "Application", false)
     else
       (* Normalize casing *)
       c <~ next (filter (fun c => eqb (lower c) category_lower) CATEGORIES) ;;
       Return (c, is_valid)) ;;
  (* Validate priority *)
  '(priority, is_valid) <~
    (if negb (mem priority_lower valid_priorities) then
       (* Try fuzzy matching *)
       if contains (lit "critic") priority_lower || contains (lit "critique") priority_lower
       then Return (lit "Critical", is_valid)
       else if contains (lit "urgent") priority_lower
       then Return (lit "Urgent", is_valid)
       else if contains (lit "high") priority_lower || contains (lit "haut") priority_lower
       then Return (lit "High", is_valid)
       else if contains (lit "medium") priority_lower || contains (lit "moyen") priority_lower
       then Return (lit "Medium", is_valid)
       else Return (lit "Low", false)
     else
       (* Normalize casing *)
       p <~ next (filter (fun p => eqb (lower p) priority_lower) PRIORITIES) ;;
       Return (p, is_valid)) ;;
  Return (category, priority, is_valid).

Definition forward (classifier : predictor) (ticket : str) : comp Prediction :=
  (* Get prediction *)
  result <- invoke classifier ticket ;;
  (* Validate and correct *)
  '(category, priority, is_valid) <-
    lift (validate_and_correct (result_category result) (result_priority result)) ;;
  ret {| category := category; priority := priority;
         is_valid := Some is_valid; attempts := None; model_used := None;
         category_confidence := None; priority_confidence := None;
         num_models := None |}.

End ValidatedTicketClassifier.

Module RetryTicketClassifier.

(** The configuration [__init__] stores: the int [max_retries] and the
    float [initial_delay]; the defaults are 3 and 1.0. *)
Record t := { max_retries : Z; initial_delay : Q }.

(** [range(n)] *)
Definition range (n : Z) : list Z := map Z.of_nat (seq 0 (Z.to_nat n)).

(** The final [raise Exception(f"Failed after ... attempts: {last_error}")];
    [last_error] is [None] until an attempt has failed. *)
Definition all_attempts_failed (self : t) (last_error : option exn) : exn :=
  Exception (lit "Failed after " ++ of_Z (max_retries self) ++ lit " attempts: "
             ++ match last_error with
                | Some e => str_of_exn e
                | None => lit "None"
                end).

(** The [for attempt in range(self.max_retries)] loop over the attempts
    still to make, followed by the final [raise]. Each iteration invokes the
    classifier once, so iteration [attempt] sees its invocation number
    [attempt] (from 0). *)
Fixpoint attempts_loop (self : t) (classifier : nat -> predictor) (ticket : str)
    (todo : list Z) (last_error : option exn) : comp Prediction :=
  match todo with
  | [] =>
      (* All attempts failed *)
      raise (all_attempts_failed self last_error)
  | attempt :: todo' =>
      try_except
        ((* Attempt prediction *)
         result <- invoke (classifier (Z.to_nat attempt)) ticket ;;
         (* Success - return result *)
         ret {| category := result_category result;
                priority := result_priority result;
                is_valid := None; attempts := Some (attempt + 1)%Z;
                model_used := None; category_confidence := None;
                priority_confidence := None; num_models := None |})
        (fun e =>
           let last_error := Some e in
           (* If last attempt, raise error *)
           if (attempt =? max_retries self - 1)%Z
           then raise (all_attempts_failed self last_error)
           else
             (* Calculate delay with exponential backoff *)
             delay <- lift (float_times_int (initial_delay self) (2 ^ attempt)) ;;
             print (attempt_failed (attempt + 1)%Z e) ;;;
             print (retrying_in delay) ;;;
             time_sleep delay ;;;
             attempts_loop self classifier ticket todo' last_error)
  end.

Definition forward (self : t) (classifier : nat -> predictor) (ticket : str)
  : comp Prediction :=
  let last_error := None in
  attempts_loop self classifier ticket (range (max_retries self)) last_error.

End RetryTicketClassifier.

Module FallbackTicketClassifier.

Definition forward (primary_lm fallback_lm : predictor) (ticket : str)
  : comp Prediction :=
  (* Try primary model *)
  try_except
    (result <- invoke primary_lm ticket ;;
     ret {| category := result_category result;
            priority := result_priority result;
            is_valid := None; attempts := None;
            model_used := Some (lit "primary"); category_confidence := None;
            priority_confidence := None; num_models := None |})
    (fun e =>
       print (primary_model_failed e) ;;;
       print switching_to_fallback ;;;
       (* Fallback to backup model *)
       try_except
         (result <- invoke fallback_lm ticket ;;
          ret {| category := result_category result;
                 priority := result_priority result;
                 is_valid := None; attempts := None;
                 model_used := Some (lit "fallback");
                 category_confidence := None;
                 priority_confidence := None; num_models := None |})
         (fun fallback_error =>
            (* Both models failed *)
            raise (Exception (lit "Both models failed. Fallback error: "
                              ++ str_of_exn fallback_error)))).

End FallbackTicketClassifier.

(** [collections.Counter] over strings: a dict, so the keys keep the order
    in which they were first inserted. *)
Module Counter.

Definition t := list (str * nat).

(** [mapping[elem] = mapping.get(elem, 0) + 1] *)
Fixpoint incr (elem : str) (c : t) : t :=
  match c with
  | [] => [(elem, 1)]
  | (k, n) :: c' =>
      if eqb elem k then (k, S n) :: c' else (k, n) :: incr elem c'
  end.

(** [Counter(iterable)] *)
Definition of_list (elems : list str) : t :=
  fold_left (fun c elem => incr elem c) elems [].

(** [c[key]]: a missing key counts 0. *)
Fixpoint get (c : t) (key : str) : nat :=
  match c with
  | [] => 0
  | (k, n) :: c' => if eqb key k then n else get c' key
  end.

(** [max(items, key=itemgetter(1))]: the running maximum is replaced only
    by an item that is strictly greater, so the first maximal item wins. *)
Fixpoint max_item (best : str * nat) (items : list (str * nat)) : str * nat :=
  match items with
  | [] => best
  | item :: items' =>
      if snd best <? snd item then max_item item items'
      else max_item best items'
  end.

(** [c.most_common(1)], which is [heapq.nlargest(1, c.items(), key=...)]:
    the empty list for an empty counter, else the one item [max] picks. *)
Definition most_common_1 (c : t) : list (str * nat) :=
  match c with
  | [] => []
  | first :: rest => [max_item first rest]
  end.

End Counter.

Module EnsembleTicketClassifier.

(** [l[0]] *)
Definition first_item {A} (l : list A) : outcome A :=
  match l with
  | x :: _ => Return x
  | [] => Raise (IndexError (lit "list index out of range"))
  end.

(** [a / b] on two [int]s. *)
Definition truediv (a b : Z) : outcome Q :=
  if (b =? 0)%Z then Raise (ZeroDivisionError (lit "division by zero"))
  else Return (inject_Z a / inject_Z b)%Q.

(** The loop [for lm, weight in self.models], threading [predictions]; an
    entry of [predictions] is the pair of the dict's ['category'] and
    ['priority']. [range(weight)] is empty for a weight below 1. *)
Fixpoint collect (models : list (predictor * Z)) (ticket : str)
    (predictions : list (str * str)) : comp (list (str * str)) :=
  match models with
  | [] => ret predictions
  | (lm, weight) :: models' =>
      predictions <-
        try_except
          (result <- invoke lm ticket ;;
           (* Add prediction with its weight *)
           ret (predictions ++
                repeat (lower (strip (result_category result)),
                        lower (strip (result_priority result)))
                       (Z.to_nat weight)))
          (fun e =>
             print (error_with_a_model e) ;;;
             ret predictions) ;;
      collect models' ticket predictions
  end.

Definition forward (models : list (predictor * Z)) (ticket : str)
  : comp Prediction :=
  (* Get predictions from each model *)
  predictions <- collect models ticket [] ;;
  match predictions with
  | [] => raise (Exception (lit "No model could make a prediction"))
  | _ :: _ =>
      (* Majority vote for category *)
      let categories := map fst predictions in
      let category_counts := Counter.of_list categories in
      top <- lift (first_item (Counter.most_common_1 category_counts)) ;;
      let winning_category := fst top in
      (* Majority vote for priority *)
      let priorities := map snd predictions in
      let priority_counts := Counter.of_list priorities in
      top <- lift (first_item (Counter.most_common_1 priority_counts)) ;;
      let winning_priority := fst top in
      (* Normalize results *)
      let category :=
        next_default (filter (fun c => eqb (lower c) winning_category) CATEGORIES)
                     winning_category in
      let priority :=
        next_default (filter (fun p => eqb (lower p) winning_priority) PRIORITIES)
                     winning_priority in
      (* Calculate confidence (percentage of agreement) *)
      category_confidence <-
        lift (truediv (Z.of_nat (Counter.get category_counts winning_category))
                      (Z.of_nat (List.length predictions))) ;;
      priority_confidence <-
        lift (truediv (Z.of_nat (Counter.get priority_counts winning_priority))
                      (Z.of_nat (List.length predictions))) ;;
      ret {| category := category; priority := priority;
             is_valid := None; attempts := None; model_used := None;
             category_confidence := Some category_confidence;
             priority_confidence := Some priority_confidence;
             num_models := Some (Z.of_nat (List.length models)) |}
  end.

End EnsembleTicketClassifier.

(** ** scripts/modules.py *)

Module RefinedTicketClassifier.

(** The prediction handed to the reward function: a field may be absent
    ([hasattr] is false). *)
Record prediction := {
  pred_category : option str;
  pred_priority : option str }.

Definition valid_categories : list str := map lower CATEGORIES.
Definition valid_priorities : list str := map lower PRIORITIES.

(** [_reward_function(self, args, prediction)]; [args] is not read. *)
Definition _reward_function (prediction : prediction) : Q :=
  let score := 0%Q in
  (* Check if category is valid *)
  let score :=
    match pred_category prediction with
    | Some category =>
        let category_valid := mem (lower (strip category)) valid_categories in
        if category_valid then (score + 0.5)%Q else score
    | None => score
    end in
  (* Check if priority is valid *)
  let score :=
    match pred_priority prediction with
    | Some priority =>
        let priority_valid := mem (lower (strip priority)) valid_priorities in
        if priority_valid then (score + 0.5)%Q else score
    | None => score
    end in
  score.

End RefinedTicketClassifier.


(** ** What the statements below speak of *)

Module Vocabulary.

Import ValidatedTicketClassifier.

(** A raw field matches a vocabulary when, stripped and lowercased, it is
    the lowercase of one of its values. *)
Definition matches_vocabulary (vocabulary : list str) (raw : str) : Prop :=
  exists v, In v vocabulary /\ lower v = lower (strip raw).

(** The keywords of the substring heuristics, in the order of the source. *)
Definition category_keywords : list str :=
  [lit "hard"; kw_mater; lit "soft"; lit "logic"; kw_reseau; lit "network";
   lit "compte"; lit "account"].

Definition priority_keywords : list str :=
  [lit "critic"; lit "critique"; lit "urgent"; lit "high"; lit "haut";
   lit "medium"; lit "moyen"].

(** A raw field matches a heuristic when, stripped and lowercased, it
    contains one of the keywords. *)
Definition matches_heuristic (keywords : list str) (raw : str) : Prop :=
  exists kw, In kw keywords /\ substring kw (lower (strip raw)).

(** Normalising the (category, priority) of a first normalisation again. *)
Definition normalize_twice (x y : str) : outcome (str * str * bool) :=
  '(category, priority, _) <~ validate_and_correct x y ;;
  validate_and_correct category priority.

(** A field counts when it is present and its stripped, lowercased value
    is in the vocabulary. *)
Definition field_valid (vocabulary : list str) (field : option str) : Prop :=
  exists raw, field = Some raw /\ matches_vocabulary vocabulary raw.

(** The share of one field in the reward. *)
Definition field_reward (vocabulary : list str) (field : option str) (share : Q)
  : Prop :=
  (field_valid vocabulary field /\ share = 0.5%Q)
  \/ (~ field_valid vocabulary field /\ share = 0%Q).

End Vocabulary.

(** ** Test doubles and the vocabulary of the statements on wrappers *)

Module Doubles.

(** A predictor that answers the same pair on every ticket. *)
Definition answering (category priority : string) : predictor :=
  fun _ => Return {| result_category := lit category;
                     result_priority := lit priority |}.

(** A predictor that fails with [Exception(msg)] on every ticket. *)
Definition failing (msg : string) : predictor :=
  fun _ => Raise (Exception (lit msg)).

(** The ticket of the end-to-end scenario. *)
Definition vpn_ticket : str := lit "VPN is down, cannot access files".

End Doubles.

Module Wrappers.

(** A prediction is normalised when both fields are vocabulary values. *)
Definition in_vocabulary (p : Prediction) : Prop :=
  In (category p) CATEGORIES /\ In (priority p) PRIORITIES.

(** A message references a failure cause when it contains its text. *)
Definition references (msg : str) (cause : exn) : Prop :=
  substring (str_of_exn cause) msg.

(** The number of predictor invocations in a trace. *)
Definition invocations (tr : list event) : nat :=
  List.length (filter (fun ev => match ev with Invoke _ _ => true | _ => false end) tr).


(** The wait after failed attempt [k], counted from 1:
    [initial_delay * 2^(k-1)]. *)
Definition backoff (initial_delay : Q) (k : nat) : Q :=
  (initial_delay * inject_Z (2 ^ (Z.of_nat k - 1)))%Q.


End Wrappers.

(** ** The vote of the ensemble, member by member *)

Module Vote.

(** The ballot of a successful member: its two fields, stripped and
    lowercased. *)
Definition normalized (r : result) : str * str :=
  (lower (strip (result_category r)), lower (strip (result_priority r))).

(** A member succeeds when its invocation returns. *)
Definition succeeds (ticket : str) (m : predictor * Z) : Prop :=
  exists r, fst m ticket = Return r.

(** A member casts a ballot when it succeeds with a weight of at least 1. *)
Definition casts_ballot (ticket : str) (m : predictor * Z) : Prop :=
  succeeds ticket m /\ (1 <= snd m)%Z.

(** The successful members in iteration order, each with its ballot and
    its weight. *)
Definition successes (models : list (predictor * Z)) (ticket : str)
  : list ((str * str) * Z) :=
  flat_map (fun m => match fst m ticket with
                     | Return r => [(normalized r, snd m)]
                     | Raise _ => []
                     end) models.

(** The votes on one field: the value each successful member gives it,
    with the member's weight. *)
Definition category_votes (models : list (predictor * Z)) (ticket : str)
  : list (str * Z) :=
  map (fun s => (fst (fst s), snd s)) (successes models ticket).

Definition priority_votes (models : list (predictor * Z)) (ticket : str)
  : list (str * Z) :=
  map (fun s => (snd (fst s), snd s)) (successes models ticket).

(** The total weight accumulated by a value. *)
Fixpoint total_weight (votes : list (str * Z)) (value : str) : Z :=
  match votes with
  | [] => 0
  | (v, w) :: votes' =>
      ((if eqb value v then w else 0) + total_weight votes' value)%Z
  end.

(** The total of the ballots cast. *)
Definition ballots_cast (votes : list (str * Z)) : Z :=
  fold_right Z.add 0%Z (map snd votes).

(** [winner] wins the votes: no value has more total weight, and every
    value met before the first vote for [winner] has strictly less, so a
    tie goes to the value encountered first. *)
Definition wins (votes : list (str * Z)) (winner : str) : Prop :=
  exists before w after,
    votes = before ++ (winner, w) :: after
    /\ (forall v, In v (map fst before) ->
                  (total_weight votes v < total_weight votes winner)%Z)
    /\ (forall v, (total_weight votes v <= total_weight votes winner)%Z).

(** How many of the ballots are for a value. *)
Definition occurrences (ballots : list str) (value : str) : nat :=
  List.length (filter (eqb value) ballots).

(** The keys of a counter, in its order. *)
Definition keys (c : Counter.t) : list str := map fst c.

(** The values seen so far, in the order of their first ballot, after one
    more ballot. *)
Definition first_seen (seen : list str) (value : str) : list str :=
  if mem value seen then seen else seen ++ [value].

(** [winner] is the first of the most frequent values of a list of
    ballots. *)
Definition first_most_frequent (ballots : list str) (winner : str) : Prop :=
  (exists l1 l2, ballots = l1 ++ winner :: l2
                 /\ forall v, In v l1 ->
                              occurrences ballots v < occurrences ballots winner)
  /\ (forall v, occurrences ballots v <= occurrences ballots winner).

(** The ballots that votes stand for: each value, [weight] times. *)
Definition expand (votes : list (str * Z)) : list str :=
  flat_map (fun vw => repeat (fst vw) (Z.to_nat (snd vw))) votes.

(** The share of the ballots that are for a value. *)
Definition share (ballots : list str) (value : str) : Q :=
  (inject_Z (Z.of_nat (occurrences ballots value))
   / inject_Z (Z.of_nat (List.length ballots)))%Q.

(** The canonical casing of a winning value: the vocabulary value with
    that lowercase when there is one, else the value itself. *)
Definition recased (vocabulary : list str) (value : str) : str :=
  match find (fun c => eqb (lower c) value) vocabulary with
  | Some c => c
  | None => value
  end.

(** The ballots the loop over the members collects: a successful member
    repeats its ballot [weight] times. *)
Definition ballots (models : list (predictor * Z)) (ticket : str)
  : list (str * str) :=
  flat_map (fun m => match fst m ticket with
                     | Return r => repeat (normalized r) (Z.to_nat (snd m))
                     | Raise _ => []
                     end) models.

(** The events of the loop: every member is invoked, and a failure is
    printed. *)
Definition ballot_trace (models : list (predictor * Z)) (ticket : str)
  : list event :=
  flat_map (fun m => Invoke ticket (fst m ticket)
                     :: match fst m ticket with
                        | Return _ => []
                        | Raise e => [Print (error_with_a_model e)]
                        end) models.

End Vote.

(** ** modules.py: the simple and the composed modules *)

Module SimpleTicketClassifier.

Definition forward (classifier : predictor) (ticket : str) : comp Prediction :=
  result <- invoke classifier ticket ;;
  ret {| category := result_category result;
         priority := result_priority result;
         is_valid := None; attempts := None; model_used := None;
         category_confidence := None; priority_confidence := None;
         num_models := None |}.

End SimpleTicketClassifier.

Module ValidatedClassifier.

Definition valid_categories : list str := map lower CATEGORIES.
Definition valid_priorities : list str := map lower PRIORITIES.

(** What this module does besides returning: the call of the classifier and
    the two warnings, each with the value its f-string shows. *)
Inductive event :=
| Called (ticket : str) (answer : outcome result)
| Invalid_category (category : str)
| Invalid_priority (priority : str).

Definition forward (classifier : predictor) (ticket : str)
  : list event * outcome Prediction :=
  (* Get prediction *)
  match classifier ticket with
  | Raise e => ([Called ticket (Raise e)], Raise e)
  | Return result =>
      (* Validate category *)
      let category := strip (result_category result) in
      let '(category, warned_category) :=
        if negb (mem (lower category) valid_categories)
        then (lit "Application", [Invalid_category category])
        else (category, []) in
      (* Validate priority *)
      let priority := strip (result_priority result) in
      let '(priority, warned_priority) :=
        if negb (mem (lower priority) valid_priorities)
        then (lit "Medium", [Invalid_priority priority])
        else (priority, []) in
      ([Called ticket (Return result)] ++ warned_category ++ warned_priority,
       Return {| category := category; priority := priority;
                 is_valid := None; attempts := None; model_used := None;
                 category_confidence := None; priority_confidence := None;
                 num_models := None |})
  end.

End ValidatedClassifier.

Module EnsembleClassifier.

(** The loop [for classifier in self.classifiers], threading the two lists;
    a failing classifier ends it. *)
Fixpoint collect (classifiers : list predictor) (ticket : str)
    (categories priorities : list str) : comp (list str * list str) :=
  match classifiers with
  | [] => ret (categories, priorities)
  | classifier :: classifiers' =>
      result <- invoke classifier ticket ;;
      collect classifiers' ticket
              (categories ++ [result_category result])
              (priorities ++ [result_priority result])
  end.

Definition forward (classifiers : list predictor) (ticket : str)
  : comp Prediction :=
  (* Collect predictions from all models *)
  ' (categories, priorities) <- collect classifiers ticket [] [] ;;
  (* Majority vote *)
  top <- lift (EnsembleTicketClassifier.first_item
                 (Counter.most_common_1 (Counter.of_list categories))) ;;
  let category_vote := fst top in
  top <- lift (EnsembleTicketClassifier.first_item
                 (Counter.most_common_1 (Counter.of_list priorities))) ;;
  let priority_vote := fst top in
  ret {| category := category_vote; priority := priority_vote;
         is_valid := None; attempts := None; model_used := None;
         category_confidence := None; priority_confidence := None;
         num_models := None |}.

End EnsembleClassifier.

(** ** metrics.py, and the metric of main.py *)

Module Metrics.

(** A ground-truth example. As a dict or as a [dspy.Example] it is read
    through the same three fields. *)
Record example := { ex_ticket : str; ex_category : str; ex_priority : str }.

Definition exact_match_metric (example : example) (prediction : Prediction) : Q :=
  (* Normalize strings (lowercase, no spaces) *)
  let pred_category := lower (strip (category prediction)) in
  let true_category := lower (strip (ex_category example)) in
  let pred_priority := lower (strip (priority prediction)) in
  let true_priority := lower (strip (ex_priority example)) in
  (* Both must be correct *)
  if eqb pred_category true_category && eqb pred_priority true_priority
  then 1.0%Q
  else 0.0%Q.

Definition partial_match_metric (example : example) (prediction : Prediction) : Q :=
  (* Normalize strings *)
  let pred_category := lower (strip (category prediction)) in
  let true_category := lower (strip (ex_category example)) in
  let pred_priority := lower (strip (priority prediction)) in
  let true_priority := lower (strip (ex_priority example)) in
  let category_match := eqb pred_category true_category in
  let priority_match := eqb pred_priority true_priority in
  if category_match && priority_match then 1.0%Q
  else if category_match then 0.7%Q (* Category is more important *)
  else if priority_match then 0.5%Q
  else 0.0%Q.

Definition category_only_metric (example : example) (prediction : Prediction) : Q :=
  let pred_category := lower (strip (category prediction)) in
  let true_category := lower (strip (ex_category example)) in
  if eqb pred_category true_category then 1.0%Q else 0.0%Q.

Definition priority_only_metric (example : example) (prediction : Prediction) : Q :=
  let pred_priority := lower (strip (priority prediction)) in
  let true_priority := lower (strip (ex_priority example)) in
  if eqb pred_priority true_priority then 1.0%Q else 0.0%Q.

(** [evaluate_classifier] of main.py. *)
Definition evaluate_classifier (example : example) (prediction : Prediction) : Q :=
  let category_correct :=
    eqb (lower (strip (category prediction))) (lower (strip (ex_category example))) in
  let priority_correct :=
    eqb (lower (strip (priority prediction))) (lower (strip (ex_priority example))) in
  if category_correct && priority_correct then 1.0%Q
  else if category_correct || priority_correct then 0.5%Q
  else 0.0%Q.

End Metrics.

(** ** evaluation.py *)

Module Evaluation.

Import Metrics.

(** The lines of the verbose output, by the values their f-strings show. *)
Inductive shown :=
| example_number (i n_examples : Z)
| ticket_prefix (prefix : str)
| expected (category priority : str)
| predicted (category priority : str)
| score_of (score : Q).

(** An event of an evaluation: an event of the evaluated module, or a line
    of the verbose output. *)
Inductive event :=
| Of_module (e : Runtime.event)
| Shown (l : shown).

(** The module under evaluation, by what its call number [i] (from 0) does
    on a ticket. A metric is a function of the example and the prediction
    that returns a score. *)
Definition module := nat -> str -> comp Prediction.

(** The loop [for i, example in enumerate(dataset)], from index [i] with the
    total so far; a call of the module that raises ends it. *)
Fixpoint evaluate_loop (module : module) (metric : example -> Prediction -> Q)
    (verbose : bool) (n_examples : Z) (i : nat) (dataset : list example)
    (total_score : Q) : list event * outcome Q :=
  match dataset with
  | [] => ([], Return total_score)
  | example :: dataset' =>
      let ticket := ex_ticket example in
      (* Get prediction *)
      match module i ticket with
      | (tr, Raise e) => (map Of_module tr, Raise e)
      | (tr, Return prediction) =>
          (* Calculate score *)
          let score := metric example prediction in
          let total_score := (total_score + score)%Q in
          (* Optional verbose output *)
          let lines :=
            if verbose
            then [Shown (example_number (Z.of_nat i + 1) n_examples);
                  Shown (ticket_prefix (firstn 50 (ex_ticket example)));
                  Shown (expected (ex_category example) (ex_priority example));
                  Shown (predicted (category prediction) (priority prediction));
                  Shown (score_of score)]
            else [] in
          let (tr', r) :=
            evaluate_loop module metric verbose n_examples (S i) dataset'
                          total_score in
          (map Of_module tr ++ lines ++ tr', r)
      end
  end.

Definition evaluate_module (module : module) (dataset : list example)
    (metric : example -> Prediction -> Q) (verbose : bool)
  : list event * outcome Q :=
  let total_score := 0%Q in
  let n_examples := Z.of_nat (List.length dataset) in
  match evaluate_loop module metric verbose n_examples 0 dataset total_score with
  | (tr, Raise e) => (tr, Raise e)
  | (tr, Return total_score) =>
      (* Average score *)
      if (n_examples =? 0)%Z
      then (tr, Raise (ZeroDivisionError (lit "division by zero")))
      else (tr, Return (total_score / inject_Z n_examples)%Q)
  end.

End Evaluation.

(** ** fixes.py *)

Module Fixes.

(** The attributes of a prediction that [get_safe_reasoning] looks at: an
    attribute is absent, or holds [None] or a string. *)
Definition attributes := str -> option (option str).

(** [if value:] *)
Definition truthy (value : option str) : bool :=
  match value with
  | Some (_ :: _) => true
  | Some [] | None => false
  end.

(** [str(value)] *)
Definition str_of (value : option str) : str :=
  match value with
  | Some s => s
  | None => lit "None"
  end.

(** The loop over the attribute names, followed by the final [return]. *)
Fixpoint first_reasoning (prediction : attributes) (attrs : list str) : str :=
  match attrs with
  | [] => lit "Pas de raisonnement disponible"
  | attr :: attrs' =>
      match prediction attr with
      | Some value =>
          if truthy value then str_of value
          else first_reasoning prediction attrs'
      | None => first_reasoning prediction attrs'
      end
  end.

Definition get_safe_reasoning (prediction : attributes) : str :=
  first_reasoning prediction
    [lit "rationale"; lit "reasoning"; lit "chain_of_thought"; lit "cot"].

End Fixes.

(** ** What the further statements speak of *)

Module Notions.

Import ValidatedTicketClassifier Vocabulary Vote Metrics.

(** A string is stripped when it neither starts nor ends with a blank. *)
Definition stripped (s : str) : Prop := lstrip s = s /\ lstrip (rev s) = rev s.

(** A string of blanks. *)
Definition blank (ws : str) : Prop := Forall (fun c => isspace c = true) ws.

(** The substring heuristics as ordered rules: the keywords of a rule and
    the value it gives, in the order of the source. *)
Definition category_rules : list (list str * str) :=
  [([lit "hard"; kw_mater], lit "Hardware");
   ([lit "soft"; lit "logic"], lit "Software");
   ([kw_reseau; lit "network"], lit "Network");
   ([lit "compte"; lit "account"], lit "Account")].

Definition priority_rules : list (list str * str) :=
  [([lit "critic"; lit "critique"], lit "Critical");
   ([lit "urgent"], lit "Urgent");
   ([lit "high"; lit "haut"], lit "High");
   ([lit "medium"; lit "moyen"], lit "Medium")].

(** The value of the first rule one of whose keywords the field contains. *)
Fixpoint first_rule (rules : list (list str * str)) (field : str) : option str :=
  match rules with
  | [] => None
  | (keywords, value) :: rules' =>
      if existsb (fun kw => contains kw field) keywords then Some value
      else first_rule rules' field
  end.

(** One field normalised on its own: the vocabulary value with the same
    lowercase if there is one, else the value of the first rule that
    applies, else the default, which alone is reported invalid. *)
Definition normalise_field (vocabulary : list str)
    (rules : list (list str * str)) (default : str) (raw : str) : str * bool :=
  let field := lower (strip raw) in
  match find (fun v => eqb (lower v) field) vocabulary with
  | Some v => (v, true)
  | None =>
      match first_rule rules field with
      | Some value => (value, true)
      | None => (default, false)
      end
  end.

(** A member casts a ballot, as a test. *)
Definition casting (ticket : str) (m : predictor * Z) : bool :=
  match fst m ticket with
  | Return _ => (1 <=? snd m)%Z
  | Raise _ => false
  end.

(** Each member repeated as often as its weight, with weight 1. *)
Definition unfolded (models : list (predictor * Z)) : list (predictor * Z) :=
  flat_map (fun m => repeat (fst m, 1%Z) (Z.to_nat (snd m))) models.

(** Two outcomes of the ensemble agree when they raise the same error or
    return the same fields and confidences; the number of models may
    differ. *)
Definition same_vote (a b : outcome Prediction) : Prop :=
  match a, b with
  | Return p, Return q =>
      category p = category q /\ priority p = priority q
      /\ category_confidence p = category_confidence q
      /\ priority_confidence p = priority_confidence q
  | Raise e, Raise e' => e = e'
  | _, _ => False
  end.

(** The answers of classifiers that all answer. *)
Definition answers (classifiers : list predictor) (ticket : str) : list result :=
  flat_map (fun c => match c ticket with
                     | Return r => [r]
                     | Raise _ => []
                     end) classifiers.

(** The prediction a module returns for the raw fields of an answer. *)
Definition raw_prediction (r : result) : Prediction :=
  {| category := result_category r; priority := result_priority r;
     is_valid := None; attempts := None; model_used := None;
     category_confidence := None; priority_confidence := None;
     num_models := None |}.


(** The lines of the verbose output removed from the events of an
    evaluation. *)
Definition module_events (tr : list Evaluation.event) : list Runtime.event :=
  flat_map (fun ev => match ev with
                      | Evaluation.Of_module e => [e]
                      | Evaluation.Shown _ => []
                      end) tr.

End Notions.

(** ** Facts about strings *)

Module PyStrFacts.

Lemma eqb_eq (a b : str) : eqb a b = true <-> a = b.
Proof.
  revert b; induction a as [|x a IH]; intros [|y b]; simpl; split;
    try congruence; try reflexivity.
  - rewrite andb_true_iff, N.eqb_eq, IH. intros [-> ->]; reflexivity.
  - intros E; injection E as -> ->.
    rewrite andb_true_iff, N.eqb_eq, IH; split; reflexivity.
Qed.

Lemma eqb_refl (a : str) : eqb a a = true.
Proof. apply eqb_eq; reflexivity. Qed.

Lemma eqb_neq (a b : str) : eqb a b = false <-> a <> b.
Proof.
  rewrite <- eqb_eq. destruct (eqb a b); split; congruence.
Qed.

Lemma mem_In (x : str) (xs : list str) : mem x xs = true <-> In x xs.
Proof.
  unfold mem. rewrite existsb_exists. split.
  - intros (y & Hy & E). apply eqb_eq in E. subst; assumption.
  - intros H. exists x. split; [assumption | apply eqb_refl].
Qed.

Lemma startswith_prefix (p s : str) :
  startswith p s = true <-> exists suf, s = p ++ suf.
Proof.
  revert s; induction p as [|x p IH]; intros s; simpl.
  - split; [intros _; exists s; reflexivity | reflexivity].
  - destruct s as [|y s].
    + split; [discriminate | intros (suf & E); discriminate].
    + rewrite andb_true_iff, N.eqb_eq, IH. split.
      * intros (-> & suf & ->). exists suf; reflexivity.
      * intros (suf & E). injection E as -> ->. split; [reflexivity|].
        exists suf; reflexivity.
Qed.

(** The test [sub in s] decides the substring relation. *)
Lemma contains_substring (sub s : str) :
  contains sub s = true <-> substring sub s.
Proof.
  unfold substring. induction s as [|y s IH].
  - simpl. rewrite orb_false_r, startswith_prefix. split.
    + intros (suf & E). exists [], suf. exact E.
    + intros (pre & suf & E). destruct pre; simpl in E.
      * exists suf; exact E.
      * discriminate.
  - simpl. rewrite orb_true_iff, startswith_prefix, IH. split.
    + intros [(suf & E) | (pre & suf & E)].
      * exists [], suf; exact E.
      * exists (y :: pre), suf. rewrite E; reflexivity.
    + intros (pre & suf & E). destruct pre as [|z pre]; simpl in E.
      * left. exists suf; exact E.
      * right. injection E as _ E. exists pre, suf; exact E.
Qed.

Lemma not_matches_heuristic (keywords : list str) (raw : str) :
  ~ Vocabulary.matches_heuristic keywords raw ->
  forall kw, In kw keywords -> contains kw (lower (strip raw)) = false.
Proof.
  intros H kw Hkw. destruct (contains kw (lower (strip raw))) eqn:E; [|reflexivity].
  exfalso. apply H. exists kw. split; [assumption|].
  apply contains_substring; exact E.
Qed.

Lemma not_matches_vocabulary (vocabulary : list str) (raw : str) :
  ~ Vocabulary.matches_vocabulary vocabulary raw ->
  mem (lower (strip raw)) (map lower vocabulary) = false.
Proof.
  intros H. destruct (mem _ _) eqn:E; [|reflexivity].
  exfalso. apply H. apply mem_In, in_map_iff in E.
  destruct E as (v & E & Hv). exists v; split; assumption.
Qed.

End PyStrFacts.

(** ** The validator *)

Module ValidatorFacts.

Import ValidatedTicketClassifier Vocabulary PyStrFacts.

Lemma next_filter {A} (f : A -> bool) (l : list A) :
  (exists x, In x l /\ f x = true) ->
  exists c, next (filter f l) = Return c /\ In c l /\ f c = true.
Proof.
  induction l as [|a l IH]; intros (x & Hx & Fx).
  - destruct Hx.
  - simpl. destruct (f a) eqn:Fa.
    + exists a. simpl. auto.
    + destruct Hx as [-> | Hx]; [congruence|].
      destruct IH as (c & E & Hc & Fc); [exists x; auto|].
      exists c. auto.
Qed.

(** A field that is in the lowercased vocabulary is given its canonical
    casing: the first vocabulary value with that lowercase. *)
Lemma canonical_casing (vocabulary : list str) (field_lower : str) :
  mem field_lower (map lower vocabulary) = true ->
  exists c, next (filter (fun c => eqb (lower c) field_lower) vocabulary) = Return c
            /\ In c vocabulary /\ lower c = field_lower.
Proof.
  intros H. apply mem_In, in_map_iff in H. destruct H as (v & E & Hv).
  destruct (next_filter (fun c => eqb (lower c) field_lower) vocabulary)
    as (c & Ec & Hc & Fc).
  - exists v. split; [assumption | apply eqb_eq; assumption].
  - exists c. apply eqb_eq in Fc. auto.
Qed.

Ltac split_ifs :=
  repeat match goal with
         | |- context [if ?b then _ else _] => destruct b; simpl
         end.

(** Normalization totality: the validator never raises, and what it
    returns is in the two vocabularies. *)
Lemma validate_and_correct_total (x y : str) :
  exists c p v, validate_and_correct x y = Return (c, p, v)
                /\ In c CATEGORIES /\ In p PRIORITIES.
Proof.
  unfold validate_and_correct.
  destruct (mem (lower (strip x)) valid_categories) eqn:Hx;
    destruct (mem (lower (strip y)) valid_priorities) eqn:Hy; simpl negb; cbv iota.
  - destruct (canonical_casing CATEGORIES _ Hx) as (c & -> & Hc & _).
    destruct (canonical_casing PRIORITIES _ Hy) as (p & -> & Hp & _).
    exists c, p, true. simpl. auto.
  - destruct (canonical_casing CATEGORIES _ Hx) as (c & -> & Hc & _).
    cbn [and_then].
    split_ifs; eexists c, _, _; (split; [reflexivity|]); split; try assumption;
      unfold PRIORITIES; simpl; tauto.
  - destruct (canonical_casing PRIORITIES _ Hy) as (p & -> & Hp & _).
    split_ifs; eexists _, p, _; (split; [reflexivity|]); split; try assumption;
      unfold CATEGORIES; simpl; tauto.
  - split_ifs; eexists _, _, _; (split; [reflexivity|]); split;
      unfold CATEGORIES, PRIORITIES; simpl; tauto.
Qed.

(** On canonical values the validator changes nothing and reports validity. *)
Lemma validate_and_correct_canonical (c p : str) :
  In c CATEGORIES -> In p PRIORITIES ->
  validate_and_correct c p = Return (c, p, true).
Proof.
  intros Hc Hp. unfold CATEGORIES in Hc. unfold PRIORITIES in Hp.
  simpl in Hc, Hp.
  repeat match goal with
         | H : _ \/ _ |- _ => destruct H as [H | H]
         | H : False |- _ => destruct H
         end; subst; vm_compute; reflexivity.
Qed.

(** C2, as amended. The raw output ("netwrk", "urgnt") contains none of the
    keywords of the heuristics ("network" and "urgent" are not substrings of
    it), so the validator returns the defaults "Application" and "Low" with
    the validity flag false. A raw output that does contain the keywords,
    such as ("network down", "urgent!"), is corrected to ("Network",
    "Urgent"), and then the flag stays true. *)
Theorem validate_and_correct_netwrk_urgnt :
  validate_and_correct (lit "netwrk") (lit "urgnt")
    = Return (lit "Application", lit "Low", false)
  /\ validate_and_correct (lit "network down") (lit "urgent!")
    = Return (lit "Network", lit "Urgent", true).
Proof. split; vm_compute; reflexivity. Qed.

(** C2, as stated, fails: ("netwrk", "urgnt") is not corrected to
    ("Network", "Urgent"). *)
Lemma netwrk_urgnt_not_network_urgent :
  validate_and_correct (lit "netwrk") (lit "urgnt")
    <> Return (lit "Network", lit "Urgent", false).
Proof. vm_compute. discriminate. Qed.

(** C3, as amended. A category that matches neither the vocabulary nor a
    heuristic becomes "Application", a priority that matches neither becomes
    "Low", and in both cases the validity flag is false. *)
Theorem validate_and_correct_defaults (category priority : str) :
  (~ matches_vocabulary CATEGORIES category ->
   ~ matches_heuristic category_keywords category ->
   exists p, validate_and_correct category priority
             = Return (lit "Application", p, false))
  /\
  (~ matches_vocabulary PRIORITIES priority ->
   ~ matches_heuristic priority_keywords priority ->
   exists c, validate_and_correct category priority
             = Return (c, lit "Low", false)).
Proof.
  split; intros Hv Hh.
  - apply not_matches_vocabulary in Hv.
    pose proof (not_matches_heuristic _ _ Hh) as K.
    unfold validate_and_correct. fold valid_categories in Hv. rewrite Hv.
    rewrite !K by (unfold category_keywords; simpl; tauto).
    destruct (mem (lower (strip priority)) valid_priorities) eqn:Hy;
      cbn [negb orb and_then].
    + destruct (canonical_casing PRIORITIES _ Hy) as (p & -> & _ & _).
      exists p. reflexivity.
    + split_ifs; eexists; reflexivity.
  - apply not_matches_vocabulary in Hv.
    pose proof (not_matches_heuristic _ _ Hh) as K.
    destruct (validate_and_correct_total category priority)
      as (c & p & v & E & _ & _).
    exists c. revert E.
    unfold validate_and_correct. fold valid_priorities in Hv. rewrite Hv.
    rewrite !K by (unfold priority_keywords; simpl; tauto).
    destruct (mem (lower (strip category)) valid_categories) eqn:Hx;
      cbn [negb orb and_then].
    + destruct (canonical_casing CATEGORIES _ Hx) as (c' & -> & _ & _).
      cbn [and_then]. intros E; injection E as <- _ _. reflexivity.
    + split_ifs; intros E; injection E as <- _ _; reflexivity.
Qed.

(** C3 at ("printer", "asap"): neither field matches, and both defaults
    are returned. *)
Lemma validate_and_correct_defaults_witness :
  (exists p, validate_and_correct (lit "printer") (lit "asap")
             = Return (lit "Application", p, false))
  /\ (exists c, validate_and_correct (lit "printer") (lit "asap")
                = Return (c, lit "Low", false)).
Proof.
  assert (Hcv : ~ matches_vocabulary CATEGORIES (lit "printer")).
  { intros (v & Hv & E). unfold CATEGORIES in Hv. simpl in Hv.
    repeat destruct Hv as [<- | Hv]; try discriminate E. exact Hv. }
  assert (Hch : ~ matches_heuristic category_keywords (lit "printer")).
  { intros (kw & Hk & S). apply contains_substring in S.
    unfold category_keywords in Hk. simpl in Hk.
    repeat destruct Hk as [<- | Hk]; try discriminate S. exact Hk. }
  assert (Hpv : ~ matches_vocabulary PRIORITIES (lit "asap")).
  { intros (v & Hv & E). unfold PRIORITIES in Hv. simpl in Hv.
    repeat destruct Hv as [<- | Hv]; try discriminate E. exact Hv. }
  assert (Hph : ~ matches_heuristic priority_keywords (lit "asap")).
  { intros (kw & Hk & S). apply contains_substring in S.
    unfold priority_keywords in Hk. simpl in Hk.
    repeat destruct Hk as [<- | Hk]; try discriminate S. exact Hk. }
  destruct (validate_and_correct_defaults (lit "printer") (lit "asap"))
    as [Hc Hp].
  split; [exact (Hc Hcv Hch) | exact (Hp Hpv Hph)].
Defined.

(** C3, as stated, fails: the priority "asap" matches neither the
    vocabulary nor a heuristic, and the validator does not return "Medium"
    for it. *)
Lemma unmatched_priority_is_not_medium :
  ~ (forall category priority,
       ~ matches_vocabulary PRIORITIES priority ->
       ~ matches_heuristic priority_keywords priority ->
       exists c v, validate_and_correct category priority
                   = Return (c, lit "Medium", v)).
Proof.
  intros H.
  destruct (H (lit "printer") (lit "asap")) as (c & v & E).
  - intros (w & Hw & E). unfold PRIORITIES in Hw. simpl in Hw.
    repeat destruct Hw as [<- | Hw]; try discriminate E. exact Hw.
  - intros (kw & Hk & S). apply contains_substring in S.
    unfold priority_keywords in Hk. simpl in Hk.
    repeat destruct Hk as [<- | Hk]; try discriminate S. exact Hk.
  - vm_compute in E. discriminate E.
Qed.

(** C8, as amended. The category and the priority of a second
    normalisation are those of the first, and the second validity flag is
    always true, whatever the first one was. *)
Theorem validate_and_correct_idempotent_fields (x y : str) :
  exists c p v,
    validate_and_correct x y = Return (c, p, v)
    /\ normalize_twice x y = Return (c, p, true).
Proof.
  destruct (validate_and_correct_total x y) as (c & p & v & E & Hc & Hp).
  exists c, p, v. split; [exact E|].
  unfold normalize_twice. rewrite E. simpl.
  apply validate_and_correct_canonical; assumption.
Qed.

(** C8, as stated, fails: on ("printer", "asap") the first normalisation
    reports invalid and the second reports valid. *)
Lemma normalize_twice_changes_flag :
  normalize_twice (lit "printer") (lit "asap")
    <> validate_and_correct (lit "printer") (lit "asap").
Proof. vm_compute. discriminate. Qed.

End ValidatorFacts.

(** ** The fallback executor *)

Module FallbackFacts.

Import FallbackTicketClassifier Wrappers Doubles PyStrFacts.

(** C4, as amended. When the primary operation fails, the executor does
    exactly this, in this order: the primary invocation, which fails; the
    line "Primary model failed: <primary cause>"; the line "Switching to
    fallback model..."; the fallback invocation. If the fallback succeeds,
    its fields are returned tagged 'fallback'; if it fails too, the raised
    message is "Both models failed. Fallback error: " followed by the
    fallback cause, which it therefore references. The primary cause is
    printed, before the fallback is tried, and is no part of the message. *)
Theorem fallback_after_primary_failure
    (primary_lm fallback_lm : predictor) (ticket : str) (e : exn) :
  primary_lm ticket = Raise e ->
  exists tr,
    tr = [Invoke ticket (Raise e);
          Print (primary_model_failed e);
          Print switching_to_fallback;
          Invoke ticket (fallback_lm ticket)] /\
    match fallback_lm ticket with
    | Return r =>
        exists p,
          forward primary_lm fallback_lm ticket = (tr, Return p)
          /\ model_used p = Some (lit "fallback")
          /\ category p = result_category r
          /\ priority p = result_priority r
    | Raise fallback_error =>
        exists msg,
          forward primary_lm fallback_lm ticket = (tr, Raise (Exception msg))
          /\ msg = lit "Both models failed. Fallback error: "
                   ++ str_of_exn fallback_error
          /\ references msg fallback_error
    end.
Proof.
  intros Hp. unfold forward, invoke. rewrite Hp.
  destruct (fallback_lm ticket) as [r | fe] eqn:Hf; simpl.
  - eexists. split; [reflexivity|]. eexists; repeat split; reflexivity.
  - eexists. split; [reflexivity|].
    eexists; split; [reflexivity|split; [reflexivity|]].
    exists (lit "Both models failed. Fallback error: "), [].
    rewrite app_nil_r. reflexivity.
Qed.

(** C4 on the two cases: a failing primary with a succeeding fallback, and
    a failing primary with a failing fallback. *)
Lemma fallback_after_primary_failure_witness :
  (exists tr,
     tr = [Invoke vpn_ticket (Raise (Exception (lit "timeout")));
           Print (primary_model_failed (Exception (lit "timeout")));
           Print switching_to_fallback;
           Invoke vpn_ticket
             (Return {| result_category := lit "Network";
                        result_priority := lit "High" |})] /\
     exists p,
       forward (failing "timeout") (answering "Network" "High") vpn_ticket
         = (tr, Return p)
       /\ model_used p = Some (lit "fallback")
       /\ category p = lit "Network" /\ priority p = lit "High")
  /\
  (exists tr,
     tr = [Invoke vpn_ticket (Raise (Exception (lit "timeout")));
           Print (primary_model_failed (Exception (lit "timeout")));
           Print switching_to_fallback;
           Invoke vpn_ticket (Raise (Exception (lit "refused")))] /\
     exists msg,
       forward (failing "timeout") (failing "refused") vpn_ticket
         = (tr, Raise (Exception msg))
       /\ msg = lit "Both models failed. Fallback error: refused"
       /\ references msg (Exception (lit "refused"))).
Proof.
  split.
  - exact (fallback_after_primary_failure
             (failing "timeout") (answering "Network" "High") vpn_ticket
             (Exception (lit "timeout")) eq_refl).
  - exact (fallback_after_primary_failure
             (failing "timeout") (failing "refused") vpn_ticket
             (Exception (lit "timeout")) eq_refl).
Defined.

(** C4, as stated, fails: when both operations fail, the raised message
    need not reference the primary cause. With the primary failing on
    "timeout" and the fallback on "refused", the message is
    "Both models failed. Fallback error: refused". *)
Lemma both_failed_message_omits_primary_cause :
  ~ (forall primary_lm fallback_lm ticket e fallback_error,
       primary_lm ticket = Raise e ->
       fallback_lm ticket = Raise fallback_error ->
       exists tr msg,
         forward primary_lm fallback_lm ticket = (tr, Raise (Exception msg))
         /\ references msg e /\ references msg fallback_error).
Proof.
  intros H.
  destruct (H (failing "timeout") (failing "refused") vpn_ticket
              (Exception (lit "timeout")) (Exception (lit "refused"))
              eq_refl eq_refl) as (tr & msg & E & R & _).
  vm_compute in E. injection E as _ <-.
  apply contains_substring in R. vm_compute in R. discriminate R.
Qed.

End FallbackFacts.

(** ** The retry executor *)

Module RetryFacts.

Import RetryTicketClassifier Wrappers Doubles.



Lemma float_times_int_overflow (d : Q) (attempt : Z) :
  (1024 <= attempt)%Z ->
  float_times_int d (2 ^ attempt)
  = Raise (OverflowError (lit "int too large to convert to float")).
Proof.
  intros H. unfold float_times_int.
  replace (float_overflow <=? Z.abs (2 ^ attempt))%Z with true; [reflexivity|].
  symmetry. apply Z.leb_le.
  rewrite Z.abs_eq by (apply Z.pow_nonneg; lia).
  apply Z.le_trans with (2 ^ 1024)%Z.
  - vm_compute. discriminate.
  - apply Z.pow_le_mono_r; lia.
Qed.





Section AlwaysFailing.

(** A retry executor and a classifier whose every invocation on the ticket
    fails, invocation [i] with [errors i]; the delay is one that
    [time.sleep] accepts, and the attempts are few enough for every
    [2 ** attempt] of a wait to have a float. *)
Variable self : t.
Variable classifier : nat -> predictor.
Variable ticket : str.
Variable errors : nat -> exn.
Hypothesis delay_accepted : (0 <= initial_delay self)%Q.
Hypothesis powers_have_floats : (max_retries self <= 1025)%Z.
Hypothesis always_fails : forall i, classifier i ticket = Raise (errors i).



End AlwaysFailing.


(** The waits of the witness are 1.0 and 2.0. *)
Lemma backoff_one_two :
  (backoff 1 1 == 1)%Q /\ (backoff 1 2 == 2)%Q.
Proof. split; reflexivity. Qed.



(** Why the attempts must be at most 1025: after failed attempt 1025 the
    wait is [initial_delay * 2 ** 1024], whose power has no float, so the
    handler raises OverflowError and attempt 1026 is never made. *)
Lemma retry_overflow_after_1025_attempts :
  exists tr,
    forward {| max_retries := 1026; initial_delay := 1 |}
            (fun _ => failing "boom") vpn_ticket
    = (tr, Raise (OverflowError (lit "int too large to convert to float")))
    /\ invocations tr = 1025.
Proof.
  eexists. split.
  - vm_compute. reflexivity.
  - vm_compute. reflexivity.
Qed.

End RetryFacts.

(** ** The reward function of the refinement engine *)

Module RewardFacts.

Import RefinedTicketClassifier Vocabulary PyStrFacts.

Lemma matches_vocabulary_mem (vocabulary : list str) (raw : str) :
  matches_vocabulary vocabulary raw
  <-> mem (lower (strip raw)) (map lower vocabulary) = true.
Proof.
  rewrite mem_In, in_map_iff. unfold matches_vocabulary.
  split; intros (v & A & B); exists v; auto.
Qed.

Lemma field_reward_of (vocabulary : list str) (field : option str) :
  field_reward vocabulary field
    match field with
    | Some raw =>
        if mem (lower (strip raw)) (map lower vocabulary) then 0.5%Q else 0%Q
    | None => 0%Q
    end.
Proof.
  destruct field as [raw|].
  - destruct (mem _ _) eqn:E.
    + left. split; [|reflexivity]. exists raw. split; [reflexivity|].
      apply matches_vocabulary_mem; exact E.
    + right. split; [|reflexivity]. intros (raw' & [= <-] & M).
      apply matches_vocabulary_mem in M. congruence.
  - right. split; [|reflexivity]. intros (raw & [=] & _).
Qed.

(** C9. The reward is the sum of two shares, one per field: 0.5 when the
    field is present and its stripped, lowercased value is in the
    vocabulary, 0.0 when it is absent or invalid. So the reward is 0.0, 0.5
    or 1.0, and lies in [0, 1]. *)
Theorem reward_function_shares (prediction : prediction) :
  let reward := _reward_function prediction in
  (exists category_share priority_share,
     field_reward CATEGORIES (pred_category prediction) category_share
     /\ field_reward PRIORITIES (pred_priority prediction) priority_share
     /\ reward == category_share + priority_share)%Q
  /\ (reward == 0 \/ reward == 0.5 \/ reward == 1)%Q
  /\ (0 <= reward <= 1)%Q.
Proof.
  pose proof (field_reward_of CATEGORIES (pred_category prediction)) as Hc.
  pose proof (field_reward_of PRIORITIES (pred_priority prediction)) as Hp.
  cbv zeta. unfold _reward_function.
  fold valid_categories in Hc. fold valid_priorities in Hp.
  split; [|split].
  - eexists _, _. split; [exact Hc|]. split; [exact Hp|].
    destruct (pred_category prediction) as [c|],
             (pred_priority prediction) as [p|];
      repeat match goal with
             | |- context [mem ?x ?l] => destruct (mem x l)
             end; reflexivity.
  - destruct (pred_category prediction) as [c|],
             (pred_priority prediction) as [p|];
      repeat match goal with
             | |- context [mem ?x ?l] => destruct (mem x l)
             end;
      first [left; reflexivity | right; left; reflexivity
            | right; right; reflexivity].
  - destruct (pred_category prediction) as [c|],
             (pred_priority prediction) as [p|];
      repeat match goal with
             | |- context [mem ?x ?l] => destruct (mem x l)
             end; split; unfold Qle; simpl; lia.
Qed.

End RewardFacts.

(** ** The counter of the ensemble *)

Module CounterFacts.

Import Counter Vote PyStrFacts.

Lemma keys_incr (x : str) (c : Counter.t) :
  keys (incr x c) = first_seen (keys c) x.
Proof.
  unfold first_seen, keys. induction c as [|[k n] c IH]; [reflexivity|].
  simpl. destruct (eqb x k) eqn:E; simpl; [reflexivity|].
  rewrite IH. destruct (mem x (map fst c)); reflexivity.
Qed.

Lemma get_incr (x : str) (c : Counter.t) (k : str) :
  get (incr x c) k = get c k + (if eqb k x then 1 else 0).
Proof.
  induction c as [|[k' n] c IH]; simpl.
  - destruct (eqb k x); reflexivity.
  - destruct (eqb x k') eqn:E; simpl.
    + apply eqb_eq in E; subst k'.
      destruct (eqb k x); lia.
    + destruct (eqb k k') eqn:E'; [|exact IH].
      apply eqb_eq in E'; subst k'.
      replace (eqb k x) with false; [lia|].
      symmetry. apply eqb_neq. intros ->. rewrite eqb_refl in E. discriminate.
Qed.

Lemma get_fold (l : list str) (c : Counter.t) (k : str) :
  get (fold_left (fun c elem => incr elem c) l c) k = get c k + occurrences l k.
Proof.
  revert c; induction l as [|x l IH]; intros c; simpl.
  - unfold occurrences; simpl; lia.
  - rewrite IH, get_incr. unfold occurrences. simpl.
    destruct (eqb k x); simpl; lia.
Qed.

(** [Counter(l)[k]] is the number of occurrences of [k] in [l]. *)
Lemma get_of_list (l : list str) (k : str) :
  get (of_list l) k = occurrences l k.
Proof. unfold of_list. rewrite get_fold. reflexivity. Qed.

Lemma keys_fold (l : list str) (c : Counter.t) :
  keys (fold_left (fun c elem => incr elem c) l c)
  = fold_left first_seen l (keys c).
Proof.
  revert c; induction l as [|x l IH]; intros c; simpl; [reflexivity|].
  rewrite IH, keys_incr. reflexivity.
Qed.

Lemma first_seen_NoDup (seen : list str) (x : str) :
  NoDup seen -> NoDup (first_seen seen x).
Proof.
  intros H. unfold first_seen. destruct (mem x seen) eqn:E; [exact H|].
  apply NoDup_app; [exact H | repeat constructor; intros [] |].
  intros a Ha [<- | []]. apply mem_In in Ha. congruence.
Qed.

Lemma first_seen_In (seen : list str) (x v : str) :
  In v (first_seen seen x) <-> In v seen \/ v = x.
Proof.
  unfold first_seen. destruct (mem x seen) eqn:E.
  - apply mem_In in E. split; [auto | intros [H | ->]; assumption].
  - rewrite in_app_iff. simpl. intuition congruence.
Qed.

Lemma fold_first_seen_NoDup (l seen : list str) :
  NoDup seen -> NoDup (fold_left first_seen l seen).
Proof.
  revert seen; induction l as [|x l IH]; intros seen H; simpl; [exact H|].
  apply IH, first_seen_NoDup, H.
Qed.

Lemma fold_first_seen_In (l seen : list str) (v : str) :
  In v (fold_left first_seen l seen) <-> In v seen \/ In v l.
Proof.
  revert seen; induction l as [|x l IH]; intros seen; simpl; [tauto|].
  rewrite IH, first_seen_In. intuition congruence.
Qed.

(** Where a key stands among the keys tells what was seen before it: a key
    that was not there from the start splits the ballots at its first
    occurrence, and every ballot before that is for a key that stands
    before it. *)
Lemma fold_first_seen_split (l seen d1 d2 : list str) (w : str) :
  fold_left first_seen l seen = d1 ++ w :: d2 ->
  (exists rest, seen = d1 ++ w :: rest)
  \/ (exists l1 l2, l = l1 ++ w :: l2
                    /\ (forall v, In v l1 -> In v d1)
                    /\ (forall v, In v seen -> In v d1)).
Proof.
  revert seen; induction l as [|x l IH]; intros seen E; simpl in E.
  - left. exists d2. exact E.
  - destruct (IH _ E) as [(rest & Hs) | (l1 & l2 & -> & H1 & H2)].
    + unfold first_seen in Hs. destruct (mem x seen) eqn:M.
      * left. exists rest. exact Hs.
      * destruct rest as [|y rest' _] using rev_ind.
        -- right. exists [], l.
           apply app_inj_tail in Hs. destruct Hs as [-> ->].
           split; [reflexivity|]. split; [intros v []|auto].
        -- left. exists rest'.
           rewrite app_comm_cons, app_assoc in Hs.
           apply app_inj_tail in Hs. destruct Hs as [-> _]. reflexivity.
    + right. exists (x :: l1), l2. split; [reflexivity|]. split.
      * intros v [<- | Hv]; [|auto].
        apply H2, first_seen_In. right; reflexivity.
      * intros v Hv. apply H2, first_seen_In. left; exact Hv.
Qed.

Lemma keys_of_list_NoDup (l : list str) : NoDup (keys (of_list l)).
Proof.
  unfold of_list. rewrite keys_fold. apply fold_first_seen_NoDup. constructor.
Qed.

Lemma keys_of_list_In (l : list str) (v : str) :
  In v (keys (of_list l)) <-> In v l.
Proof.
  unfold of_list. rewrite keys_fold, fold_first_seen_In. simpl. tauto.
Qed.

Lemma get_In (c : Counter.t) (k : str) (n : nat) :
  NoDup (keys c) -> In (k, n) c -> get c k = n.
Proof.
  induction c as [|[k' n'] c IH]; intros ND H; [destruct H|].
  simpl in *. inversion ND as [|? ? Hk ND']; subst.
  destruct H as [[= -> ->] | H].
  - rewrite eqb_refl. reflexivity.
  - destruct (eqb k k') eqn:E; [|auto].
    apply eqb_eq in E; subst k'. exfalso. apply Hk.
    change k with (fst (k, n)). apply in_map. exact H.
Qed.

(** [max] returns the first item with the greatest count: the items before
    it count strictly less, the items after it count no more. *)
Lemma max_item_split (items : list (str * nat)) (best : str * nat) :
  exists c1 c2,
    best :: items = c1 ++ max_item best items :: c2
    /\ (forall i, In i c1 -> snd i < snd (max_item best items))
    /\ (forall i, In i c2 -> snd i <= snd (max_item best items)).
Proof.
  revert best; induction items as [|x items IH]; intros best.
  - exists [], []. simpl. split; [reflexivity|]. split; intros i [].
  - simpl. destruct (snd best <? snd x) eqn:L.
    + apply Nat.ltb_lt in L.
      destruct (IH x) as (c1 & c2 & E & H1 & H2).
      exists (best :: c1), c2. split; [simpl; rewrite E; reflexivity|].
      split; [|exact H2].
      intros i [<- | Hi]; [|auto].
      destruct c1 as [|y c1]; simpl in E; injection E as E1 E2.
      * rewrite <- E1. exact L.
      * subst y. specialize (H1 x (or_introl eq_refl)). lia.
    + apply Nat.ltb_ge in L.
      destruct (IH best) as (c1 & c2 & E & H1 & H2).
      destruct c1 as [|y c1]; simpl in E; injection E as E1 E2.
      * exists [], (x :: c2). split; [simpl; rewrite <- E1, E2; reflexivity|].
        split; [intros i []|].
        intros i [<- | Hi]; [rewrite <- E1; exact L | auto].
      * subst y. exists (best :: x :: c1), c2.
        split; [simpl; do 2 f_equal; exact E2|]. split; [|exact H2].
        intros i [<- | [<- | Hi]].
        -- apply H1. left; reflexivity.
        -- specialize (H1 best (or_introl eq_refl)). lia.
        -- apply H1. right; exact Hi.
Qed.

Lemma occurrences_In (l : list str) (v : str) :
  0 < occurrences l v <-> In v l.
Proof.
  unfold occurrences. induction l as [|x l IH]; simpl; [split; [lia|tauto]|].
  destruct (eqb v x) eqn:E; simpl.
  - apply eqb_eq in E. subst. split; [auto | lia].
  - rewrite IH. apply eqb_neq in E. intuition congruence.
Qed.

(** The item [most_common(1)] picks from the counter of a non-empty list of
    ballots: its value splits the ballots at its first occurrence, the
    values before it occur strictly less often, and no value occurs more
    often. *)
Lemma most_common_1_of_list (x : str) (l : list str) :
  exists w,
    most_common_1 (of_list (x :: l)) = [(w, occurrences (x :: l) w)]
    /\ get (of_list (x :: l)) w = occurrences (x :: l) w
    /\ (exists l1 l2, x :: l = l1 ++ w :: l2
                      /\ forall v, In v l1 ->
                                   occurrences (x :: l) v < occurrences (x :: l) w)
    /\ (forall v, occurrences (x :: l) v <= occurrences (x :: l) w).
Proof.
  set (b := x :: l).
  pose proof (keys_of_list_NoDup b) as ND.
  assert (Hcount : forall k n, In (k, n) (of_list b) -> n = occurrences b k).
  { intros k n H. rewrite <- get_of_list. symmetry. apply get_In; assumption. }
  destruct (of_list b) as [|first rest] eqn:Ec.
  { exfalso. assert (H : In x (keys (of_list b))) by (apply keys_of_list_In; left; reflexivity).
    rewrite Ec in H. destruct H. }
  destruct (max_item_split rest first) as (c1 & c2 & E & H1 & H2).
  destruct (max_item first rest) as [w n] eqn:Em. simpl in H1, H2.
  assert (Hw : n = occurrences b w).
  { apply Hcount. rewrite E. apply in_elt. }
  exists w. rewrite <- Hw.
  split; [cbn [most_common_1]; rewrite Em; reflexivity|].
  split; [rewrite <- Ec, get_of_list; symmetry; exact Hw|].
  assert (Ek : fold_left first_seen b [] = keys c1 ++ w :: keys c2).
  { change [] with (keys []). rewrite <- keys_fold. fold (of_list b).
    rewrite Ec, E. unfold keys. rewrite map_app. reflexivity. }
  split.
  - destruct (fold_first_seen_split _ _ _ _ _ Ek) as [(r & Hr) | (l1 & l2 & El & Hl & _)].
    + destruct (keys c1); discriminate Hr.
    + exists l1, l2. split; [exact El|]. intros v Hv.
      apply Hl in Hv. unfold keys in Hv. apply in_map_iff in Hv.
      destruct Hv as ([k m] & <- & Hi). simpl.
      rewrite <- (Hcount k m)
        by (rewrite E; apply in_or_app; left; exact Hi).
      exact (H1 _ Hi).
  - intros v. destruct (Nat.eq_dec (occurrences b v) 0) as [Z | NZ]; [lia|].
    assert (Hv : In v (keys (of_list b))).
    { apply keys_of_list_In, occurrences_In. lia. }
    rewrite Ec in Hv. unfold keys in Hv. apply in_map_iff in Hv.
    destruct Hv as ([k m] & <- & Hi). simpl.
    rewrite <- (Hcount k m) by exact Hi.
    rewrite E in Hi. apply in_app_or in Hi.
    destruct Hi as [Hi | [Hi | Hi]].
    + specialize (H1 _ Hi). simpl in H1. lia.
    + injection Hi as _ <-. lia.
    + exact (H2 _ Hi).
Qed.

End CounterFacts.

(** ** The ensemble voter *)

Module EnsembleFacts.

Import EnsembleTicketClassifier Counter Vote Wrappers Doubles PyStrFacts CounterFacts.

(** The loop over the members never raises: it gathers the ballots of the
    successful members behind those it started with. *)
Lemma collect_ballots (models : list (predictor * Z)) (ticket : str)
    (predictions : list (str * str)) :
  collect models ticket predictions
  = (ballot_trace models ticket, Return (predictions ++ ballots models ticket)).
Proof.
  revert predictions; induction models as [|[lm weight] models IH];
    intros predictions.
  - simpl. rewrite app_nil_r. reflexivity.
  - cbn [collect]. unfold invoke. cbn [ballots ballot_trace flat_map fst snd].
    destruct (lm ticket) as [r | e]; cbn [bind try_except ret print app].
    + rewrite IH. fold (ballots models ticket). fold (ballot_trace models ticket).
      unfold normalized. rewrite <- app_assoc. reflexivity.
    + rewrite IH. fold (ballots models ticket). fold (ballot_trace models ticket).
      reflexivity.
Qed.

Lemma next_default_find {A} (f : A -> bool) (l : list A) (d : A) :
  next_default (filter f l) d = match find f l with Some c => c | None => d end.
Proof.
  induction l as [|a l IH]; [reflexivity|].
  simpl. destruct (f a); [reflexivity | exact IH].
Qed.

(** With no ballot the ensemble raises. *)
Lemma forward_no_ballot (models : list (predictor * Z)) (ticket : str) :
  ballots models ticket = [] ->
  forward models ticket
  = (ballot_trace models ticket,
     Raise (Exception (lit "No model could make a prediction"))).
Proof.
  intros H. unfold forward. rewrite collect_ballots, H.
  cbn [bind app raise]. rewrite app_nil_r. reflexivity.
Qed.

(** With a ballot the ensemble returns: each field is the first of its
    most frequent values, recased, with its share of the ballots. *)
Lemma forward_some_ballot (models : list (predictor * Z)) (ticket : str) :
  ballots models ticket <> [] ->
  exists wc wp,
    forward models ticket
    = (ballot_trace models ticket,
       Return {| category := recased CATEGORIES wc;
                 priority := recased PRIORITIES wp;
                 is_valid := None; attempts := None; model_used := None;
                 category_confidence :=
                   Some (share (map fst (ballots models ticket)) wc);
                 priority_confidence :=
                   Some (share (map snd (ballots models ticket)) wp);
                 num_models := Some (Z.of_nat (List.length models)) |})
    /\ first_most_frequent (map fst (ballots models ticket)) wc
    /\ first_most_frequent (map snd (ballots models ticket)) wp.
Proof.
  intros H. unfold forward. rewrite collect_ballots. cbn [app].
  destruct (ballots models ticket) as [|b bs] eqn:Eb; [congruence|].
  set (cats := map fst (b :: bs)). set (pris := map snd (b :: bs)).
  destruct (most_common_1_of_list (fst b) (map fst bs))
    as (wc & Ec & Gc & Sc & Mc).
  destruct (most_common_1_of_list (snd b) (map snd bs))
    as (wp & Ep & Gp & Sp & Mp).
  change (fst b :: map fst bs) with cats in *.
  change (snd b :: map snd bs) with pris in *.
  exists wc, wp. split; [|split; split; assumption].
  cbn [bind].
  change (map fst (b :: bs)) with cats. change (map snd (b :: bs)) with pris.
  rewrite Ec, Ep. cbn [first_item lift bind fst app].
  rewrite Gc, Gp. unfold truediv.
  replace (Z.of_nat (List.length (b :: bs)) =? 0)%Z with false
    by (symmetry; apply Z.eqb_neq; simpl; lia).
  cbn [lift bind ret app]. rewrite !next_default_find.
  unfold share, recased, cats, pris. rewrite !length_map. rewrite app_nil_r.
  reflexivity.
Qed.

Lemma occurrences_app (l1 l2 : list str) (v : str) :
  occurrences (l1 ++ l2) v = occurrences l1 v + occurrences l2 v.
Proof. unfold occurrences. rewrite filter_app, length_app. reflexivity. Qed.

Lemma occurrences_repeat (x v : str) (n : nat) :
  occurrences (repeat x n) v = if eqb v x then n else 0.
Proof.
  unfold occurrences. induction n as [|n IH]; simpl.
  - destruct (eqb v x); reflexivity.
  - destruct (eqb v x); simpl; rewrite IH; reflexivity.
Qed.

(** With weights that are not negative, a value occurs among the ballots
    as often as its total weight. *)
Lemma occurrences_expand (votes : list (str * Z)) (v : str) :
  Forall (fun vw => (0 <= snd vw)%Z) votes ->
  Z.of_nat (occurrences (expand votes) v) = total_weight votes v.
Proof.
  induction 1 as [|[x w] votes Hw _ IH]; [reflexivity|].
  unfold expand in *. cbn [flat_map fst snd total_weight] in *.
  rewrite occurrences_app, occurrences_repeat, Nat2Z.inj_add, IH.
  destruct (eqb v x); [rewrite Z2Nat.id by exact Hw|]; reflexivity.
Qed.

Lemma length_expand (votes : list (str * Z)) :
  Forall (fun vw => (0 <= snd vw)%Z) votes ->
  Z.of_nat (List.length (expand votes)) = ballots_cast votes.
Proof.
  induction 1 as [|[x w] votes Hw _ IH]; [reflexivity|].
  unfold expand, ballots_cast in *. cbn [flat_map fst snd map fold_right] in *.
  rewrite length_app, repeat_length, Nat2Z.inj_add, IH, Z2Nat.id by exact Hw.
  reflexivity.
Qed.

Lemma repeat_app_split (x w : str) (n : nat) (rest l1 l2 : list str) :
  x <> w ->
  repeat x n ++ rest = l1 ++ w :: l2 ->
  exists l1', l1 = repeat x n ++ l1' /\ rest = l1' ++ w :: l2.
Proof.
  intros Hx. revert l1; induction n as [|n IH]; intros l1 E; simpl in E.
  - exists l1. auto.
  - destruct l1 as [|y l1]; simpl in E; injection E as E1 E2; [congruence|].
    destruct (IH _ E2) as (l1' & -> & ->). subst y.
    exists l1'. auto.
Qed.

(** The first ballot for a value belongs to the first vote for it. *)
Lemma expand_split (votes : list (str * Z)) (l1 l2 : list str) (w : str) :
  Forall (fun vw => (1 <= snd vw)%Z) votes ->
  expand votes = l1 ++ w :: l2 ->
  ~ In w l1 ->
  exists before k after,
    votes = before ++ (w, k) :: after
    /\ forall v, In v (map fst before) -> In v l1.
Proof.
  intros HF. revert l1; induction HF as [|[x k] votes Hk _ IH]; intros l1 E Hw.
  - destruct l1; discriminate E.
  - unfold expand in E. cbn [flat_map fst snd] in E, Hk.
    fold (expand votes) in E.
    destruct (Z.to_nat k) as [|n] eqn:En; [lia|]. simpl in E.
    destruct l1 as [|y l1]; simpl in E; injection E as E1 E2.
    + subst x. exists [], k, votes. split; [reflexivity | intros v []].
    + subst y. assert (Hx : x <> w) by (intros ->; apply Hw; left; reflexivity).
      destruct (repeat_app_split _ _ _ _ _ _ Hx E2) as (l1' & -> & E3).
      destruct (IH _ E3) as (before & k' & after & -> & Hb).
      * intros Hin. apply Hw. right. apply in_or_app. right; exact Hin.
      * exists ((x, k) :: before), k', after. split; [reflexivity|].
        intros v [<- | Hv]; [left; reflexivity|].
        right. apply in_or_app. right. apply Hb, Hv.
Qed.

(** With weights of at least 1, the first of the most frequent ballots wins
    the votes. *)
Lemma first_most_frequent_wins (votes : list (str * Z)) (w : str) :
  Forall (fun vw => (1 <= snd vw)%Z) votes ->
  first_most_frequent (expand votes) w -> wins votes w.
Proof.
  intros HF ((l1 & l2 & E & Hl) & Hmax).
  assert (H0 : Forall (fun vw => (0 <= snd vw)%Z) votes).
  { eapply Forall_impl; [|exact HF]. simpl. intros; lia. }
  assert (Hw : ~ In w l1) by (intros Hin; specialize (Hl _ Hin); lia).
  destruct (expand_split votes l1 l2 w HF E Hw) as (before & k & after & Ev & Hb).
  exists before, k, after. split; [exact Ev|]. split.
  - intros v Hv. rewrite <- !(occurrences_expand votes) by exact H0.
    apply Nat2Z.inj_lt, Hl, Hb, Hv.
  - intros v. rewrite <- !(occurrences_expand votes) by exact H0.
    apply Nat2Z.inj_le, Hmax.
Qed.

Lemma ballots_category (models : list (predictor * Z)) (ticket : str) :
  map fst (ballots models ticket) = expand (category_votes models ticket).
Proof.
  unfold ballots, expand, category_votes, successes.
  induction models as [|[lm w] models IH]; [reflexivity|].
  cbn [flat_map fst snd]. rewrite !map_app, flat_map_app, IH.
  destruct (lm ticket) as [r|e]; simpl; [|reflexivity].
  rewrite map_repeat, app_nil_r. reflexivity.
Qed.

Lemma ballots_priority (models : list (predictor * Z)) (ticket : str) :
  map snd (ballots models ticket) = expand (priority_votes models ticket).
Proof.
  unfold ballots, expand, priority_votes, successes.
  induction models as [|[lm w] models IH]; [reflexivity|].
  cbn [flat_map fst snd]. rewrite !map_app, flat_map_app, IH.
  destruct (lm ticket) as [r|e]; simpl; [|reflexivity].
  rewrite map_repeat, app_nil_r. reflexivity.
Qed.

Lemma successes_weights (models : list (predictor * Z)) (ticket : str) :
  Forall (fun m => (1 <= snd m)%Z) models ->
  Forall (fun s => (1 <= snd s)%Z) (successes models ticket).
Proof.
  unfold successes. induction 1 as [|[lm w] models Hw _ IH]; [constructor|].
  cbn [flat_map fst snd]. destruct (lm ticket); simpl; [constructor|]; auto.
Qed.

(** Ballots are cast exactly when a member succeeds with a weight of at
    least 1. *)
Lemma ballots_nonempty (models : list (predictor * Z)) (ticket : str) :
  ballots models ticket <> [] <-> Exists (casts_ballot ticket) models.
Proof.
  unfold ballots. induction models as [|[lm w] models IH].
  - simpl. split; [congruence | intros H; inversion H].
  - cbn [flat_map fst snd]. rewrite Exists_cons. unfold casts_ballot at 1, succeeds.
    cbn [fst snd]. destruct (lm ticket) as [r|e].
    + destruct (Z.to_nat w) as [|n] eqn:En.
      * simpl. rewrite IH. split; [auto|].
        intros [[_ Hw] | H]; [lia | exact H].
      * split; [|simpl; discriminate].
        intros _. left. split; [exists r; reflexivity | lia].
    + simpl. rewrite IH. split; [auto|].
      intros [[(r & [=]) _] | H]. exact H.
Qed.


Lemma field_votes_weights {A} (f : (str * str) * Z -> A * Z)
    (models : list (predictor * Z)) (ticket : str) :
  (forall s, snd (f s) = snd s) ->
  Forall (fun m => (1 <= snd m)%Z) models ->
  Forall (fun vw => (1 <= snd vw)%Z) (map f (successes models ticket)).
Proof.
  intros Hf HF. apply Forall_map.
  eapply Forall_impl; [|apply successes_weights; exact HF].
  intros s Hs. rewrite Hf. exact Hs.
Qed.

Lemma share_of_votes (votes : list (str * Z)) (v : str) :
  Forall (fun vw => (1 <= snd vw)%Z) votes ->
  share (expand votes) v
  = (inject_Z (total_weight votes v) / inject_Z (ballots_cast votes))%Q.
Proof.
  intros HF.
  assert (H0 : Forall (fun vw => (0 <= snd vw)%Z) votes).
  { eapply Forall_impl; [|exact HF]. simpl. intros; lia. }
  unfold share. rewrite occurrences_expand, length_expand by exact H0.
  reflexivity.
Qed.

(** C6, as amended. With weights of at least 1 and at least one successful
    member, the ensemble returns; for each field on its own, the value it returns is
    the recased winner of the votes of the successful members on their
    stripped, lowercased outputs (no value has more total weight, and every
    value encountered before the winner has strictly less), and the
    confidence is the winner's total weight divided by the total of the
    ballots cast. *)
Theorem ensemble_majority_vote (models : list (predictor * Z)) (ticket : str) :
  Forall (fun m => (1 <= snd m)%Z) models ->
  Exists (succeeds ticket) models ->
  exists tr p winning_category winning_priority,
    forward models ticket = (tr, Return p)
    /\ wins (category_votes models ticket) winning_category
    /\ category p = recased CATEGORIES winning_category
    /\ category_confidence p
       = Some (inject_Z (total_weight (category_votes models ticket)
                                      winning_category)
               / inject_Z (ballots_cast (category_votes models ticket)))%Q
    /\ wins (priority_votes models ticket) winning_priority
    /\ priority p = recased PRIORITIES winning_priority
    /\ priority_confidence p
       = Some (inject_Z (total_weight (priority_votes models ticket)
                                      winning_priority)
               / inject_Z (ballots_cast (priority_votes models ticket)))%Q.
Proof.
  intros HF HS.
  assert (HB : ballots models ticket <> []).
  { apply ballots_nonempty. apply Exists_exists in HS.
    destruct HS as (m & Hm & Sm). apply Exists_exists. exists m.
    split; [exact Hm|]. split; [exact Sm|].
    rewrite Forall_forall in HF. apply HF, Hm. }
  destruct (forward_some_ballot models ticket HB) as (wc & wp & E & Fc & Fp).
  rewrite ballots_category in E, Fc. rewrite ballots_priority in E, Fp.
  assert (Wc : Forall (fun vw => (1 <= snd vw)%Z) (category_votes models ticket))
    by (apply field_votes_weights; [reflexivity | exact HF]).
  assert (Wp : Forall (fun vw => (1 <= snd vw)%Z) (priority_votes models ticket))
    by (apply field_votes_weights; [reflexivity | exact HF]).
  rewrite !share_of_votes in E by assumption.
  eexists _, _, wc, wp. split; [exact E|]. cbn [category priority
    category_confidence priority_confidence].
  repeat split; try reflexivity; apply first_most_frequent_wins; assumption.
Qed.

(** C6 on three members of weight 1 whose categories are Hardware,
    hardware (with blanks) and Software. *)
Lemma ensemble_majority_vote_witness :
  let models := [(answering "Hardware" "Low", 1%Z);
                 (answering " hardware " "High", 1%Z);
                 (answering "Software" "High", 1%Z)] in
  exists tr p winning_category winning_priority,
    forward models vpn_ticket = (tr, Return p)
    /\ wins (category_votes models vpn_ticket) winning_category
    /\ category p = recased CATEGORIES winning_category
    /\ category_confidence p
       = Some (inject_Z (total_weight (category_votes models vpn_ticket)
                                      winning_category)
               / inject_Z (ballots_cast (category_votes models vpn_ticket)))%Q
    /\ wins (priority_votes models vpn_ticket) winning_priority
    /\ priority p = recased PRIORITIES winning_priority
    /\ priority_confidence p
       = Some (inject_Z (total_weight (priority_votes models vpn_ticket)
                                      winning_priority)
               / inject_Z (ballots_cast (priority_votes models vpn_ticket)))%Q.
Proof.
  refine (ensemble_majority_vote _ vpn_ticket _ _).
  - repeat constructor; simpl; lia.
  - left. eexists. reflexivity.
Defined.

(** C6, as stated, fails: it asks for no more than one successful member,
    and a single member that succeeds with weight 0 casts no ballot, so the
    ensemble raises and returns no winning value at all. *)
Lemma ensemble_vote_needs_a_ballot :
  ~ (forall (models : list (predictor * Z)) (ticket : str),
       Exists (succeeds ticket) models ->
       exists tr p winning_category winning_priority,
         forward models ticket = (tr, Return p)
         /\ wins (category_votes models ticket) winning_category
         /\ category p = recased CATEGORIES winning_category
         /\ category_confidence p
            = Some (inject_Z (total_weight (category_votes models ticket)
                                           winning_category)
                    / inject_Z (ballots_cast (category_votes models ticket)))%Q
         /\ wins (priority_votes models ticket) winning_priority
         /\ priority p = recased PRIORITIES winning_priority
         /\ priority_confidence p
            = Some (inject_Z (total_weight (priority_votes models ticket)
                                           winning_priority)
                    / inject_Z (ballots_cast (priority_votes models ticket)))%Q).
Proof.
  intros H.
  destruct (H [(answering "Network" "High", 0%Z)] vpn_ticket)
    as (tr & p & wc & wp & E & _).
  - left. eexists. reflexivity.
  - vm_compute in E. discriminate E.
Qed.

(** The majority example: three members of weight 1 with the categories A,
    A and B return A with confidence 2/3. *)
Lemma ensemble_two_of_three :
  exists tr p confidence,
    forward [(answering "Hardware" "Low", 1%Z);
             (answering " hardware " "High", 1%Z);
             (answering "Software" "High", 1%Z)] vpn_ticket = (tr, Return p)
    /\ category p = lit "Hardware"
    /\ category_confidence p = Some confidence
    /\ (confidence == 2 # 3)%Q.
Proof.
  eexists _, _, _. split; [vm_compute; reflexivity|].
  split; [reflexivity|]. split; reflexivity.
Qed.

(** The ensemble either raises for want of a ballot or returns. *)
Lemma forward_raises_or_returns (models : list (predictor * Z)) (ticket : str) :
  (~ Exists (casts_ballot ticket) models
   /\ forward models ticket
      = (ballot_trace models ticket,
         Raise (Exception (lit "No model could make a prediction"))))
  \/ (Exists (casts_ballot ticket) models
      /\ exists p, forward models ticket = (ballot_trace models ticket, Return p)).
Proof.
  destruct (ballots models ticket) as [|b bs] eqn:Eb.
  - left. split.
    + rewrite <- ballots_nonempty. intros H. apply H, Eb.
    + apply forward_no_ballot, Eb.
  - assert (HB : ballots models ticket <> []) by (rewrite Eb; discriminate).
    right. split; [apply ballots_nonempty, HB|].
    destruct (forward_some_ballot models ticket HB) as (wc & wp & E & _).
    eexists. exact E.
Qed.


(** When every weight is at least 1, the ensemble raises exactly when no
    member succeeds. *)
Lemma ensemble_raises_iff_all_fail (models : list (predictor * Z))
    (ticket : str) :
  Forall (fun m => (1 <= snd m)%Z) models ->
  (exists tr e, forward models ticket = (tr, Raise e))
  <-> Forall (fun m => ~ succeeds ticket m) models.
Proof.
  intros HF.
  destruct (forward_raises_or_returns models ticket)
    as [(HN & E) | (HE & p & E)].
  - split; [|intros _; eexists _, _; exact E].
    intros _. apply Forall_forall. intros m Hm Sm. apply HN.
    apply Exists_exists. exists m. split; [exact Hm|]. split; [exact Sm|].
    rewrite Forall_forall in HF. apply HF, Hm.
  - split.
    + intros (tr' & e & E'). rewrite E in E'. discriminate E'.
    + intros HA. exfalso. apply Exists_exists in HE.
      destruct HE as (m & Hm & Sm & _).
      rewrite Forall_forall in HA. exact (HA m Hm Sm).
Qed.


(** The first of the most frequent values of a list of ballots is one
    value. *)
Lemma first_most_frequent_unique (field_ballots : list str) (w w' : str) :
  first_most_frequent field_ballots w ->
  first_most_frequent field_ballots w' ->
  w = w'.
Proof.
  intros ((l1 & l2 & E & Hl) & Hmax) ((l1' & l2' & E' & Hl') & Hmax').
  rewrite E in E' at 1.
  destruct (app_eq_app _ _ _ _ E') as (l & [[A B] | [A B]]).
  - destruct l as [|x l]; cbn [app] in B.
    + injection B as B _. symmetry; exact B.
    + injection B as <- _. exfalso.
      assert (Hin : In w' l1)
        by (rewrite A; apply in_or_app; right; left; reflexivity).
      specialize (Hl _ Hin). specialize (Hmax' w). lia.
  - destruct l as [|x l]; cbn [app] in B.
    + injection B as B _. exact B.
    + injection B as <- _. exfalso.
      assert (Hin : In w l1')
        by (rewrite A; apply in_or_app; right; left; reflexivity).
      specialize (Hl' _ Hin). specialize (Hmax w'). lia.
Qed.

(** What the ensemble returns for a field depends on the ballots through
    the values they give to that field only: members whose ballots give the
    same categories get the same category and confidence, and likewise for
    the priority. *)
Lemma forward_field_alone (models models' : list (predictor * Z)) (ticket : str) :
  Exists (casts_ballot ticket) models ->
  (map fst (ballots models ticket) = map fst (ballots models' ticket) ->
   exists tr tr' p p',
     forward models ticket = (tr, Return p)
     /\ forward models' ticket = (tr', Return p')
     /\ category p' = category p
     /\ category_confidence p' = category_confidence p)
  /\ (map snd (ballots models ticket) = map snd (ballots models' ticket) ->
      exists tr tr' p p',
        forward models ticket = (tr, Return p)
        /\ forward models' ticket = (tr', Return p')
        /\ priority p' = priority p
        /\ priority_confidence p' = priority_confidence p).
Proof.
  intros HE. apply ballots_nonempty in HE.
  destruct (forward_some_ballot models ticket HE) as (wc & wp & E & Fc & Fp).
  split; intros HM.
  - assert (HE' : ballots models' ticket <> []).
    { intros N. rewrite N in HM. apply map_eq_nil in HM. exact (HE HM). }
    destruct (forward_some_ballot models' ticket HE')
      as (wc' & wp' & E' & Fc' & Fp').
    rewrite <- HM in Fc', E'.
    rewrite (first_most_frequent_unique _ _ _ Fc' Fc) in E'.
    eexists _, _, _, _. split; [exact E|]. split; [exact E'|].
    split; reflexivity.
  - assert (HE' : ballots models' ticket <> []).
    { intros N. rewrite N in HM. apply map_eq_nil in HM. exact (HE HM). }
    destruct (forward_some_ballot models' ticket HE')
      as (wc' & wp' & E' & Fc' & Fp').
    rewrite <- HM in Fp', E'.
    rewrite (first_most_frequent_unique _ _ _ Fp' Fp) in E'.
    eexists _, _, _, _. split; [exact E|]. split; [exact E'|].
    split; reflexivity.
Qed.

(** C10. The ensemble resolves the two fields by two tallies over the same
    ballots, each on its own. Whenever a ballot is cast, the category it
    returns is the recased first of the most frequent categories of the
    ballots, and the priority the recased first of the most frequent
    priorities of the ballots; the category and its confidence are the same
    for any other members whose ballots give the same categories, whatever
    their priorities, and likewise for the priority. So the returned pair
    need not be the pair of any member: the members (Hardware, Low),
    (Software, High) and (Network, High), of weight 1 each, all succeed and
    the ensemble returns (Hardware, High), the pair of none of them. The
    members (A, X), (A, Y) and (B, Y) return (A, Y), here with
    A, B = Hardware, Software and X, Y = Low, High. *)
Theorem ensemble_pair_of_no_member :
  (forall (models : list (predictor * Z)) (ticket : str),
     Exists (casts_ballot ticket) models ->
     exists tr p winning_category winning_priority,
       forward models ticket = (tr, Return p)
       /\ first_most_frequent (map fst (ballots models ticket)) winning_category
       /\ category p = recased CATEGORIES winning_category
       /\ category_confidence p
          = Some (share (map fst (ballots models ticket)) winning_category)
       /\ first_most_frequent (map snd (ballots models ticket)) winning_priority
       /\ priority p = recased PRIORITIES winning_priority
       /\ priority_confidence p
          = Some (share (map snd (ballots models ticket)) winning_priority))
  /\ (forall (models models' : list (predictor * Z)) (ticket : str),
        Exists (casts_ballot ticket) models ->
        map fst (ballots models ticket) = map fst (ballots models' ticket) ->
        exists tr tr' p p',
          forward models ticket = (tr, Return p)
          /\ forward models' ticket = (tr', Return p')
          /\ category p' = category p
          /\ category_confidence p' = category_confidence p)
  /\ (forall (models models' : list (predictor * Z)) (ticket : str),
        Exists (casts_ballot ticket) models ->
        map snd (ballots models ticket) = map snd (ballots models' ticket) ->
        exists tr tr' p p',
          forward models ticket = (tr, Return p)
          /\ forward models' ticket = (tr', Return p')
          /\ priority p' = priority p
          /\ priority_confidence p' = priority_confidence p)
  /\ (let models := [(answering "Hardware" "Low", 1%Z);
                     (answering "Software" "High", 1%Z);
                     (answering "Network" "High", 1%Z)] in
      Forall (casts_ballot vpn_ticket) models
      /\ exists tr p,
           forward models vpn_ticket = (tr, Return p)
           /\ category p = lit "Hardware" /\ priority p = lit "High"
           /\ forall m r, In m models -> fst m vpn_ticket = Return r ->
                          (lower (category p), lower (priority p)) <> normalized r
                          /\ (category p, priority p)
                             <> (result_category r, result_priority r))
  /\ (exists tr p,
        forward [(answering "Hardware" "Low", 1%Z);
                 (answering "Hardware" "High", 1%Z);
                 (answering "Software" "High", 1%Z)] vpn_ticket
        = (tr, Return p)
        /\ category p = lit "Hardware" /\ priority p = lit "High").
Proof.
  split; [|split; [|split; [|split]]].
  - intros models ticket HE. apply ballots_nonempty in HE.
    destruct (forward_some_ballot models ticket HE) as (wc & wp & E & Fc & Fp).
    eexists _, _, wc, wp. split; [exact E|].
    cbn [category priority category_confidence priority_confidence].
    repeat split; solve [reflexivity | apply Fc | apply Fp].
  - intros models models' ticket HE.
    apply (proj1 (forward_field_alone models models' ticket HE)).
  - intros models models' ticket HE.
    apply (proj2 (forward_field_alone models models' ticket HE)).
  - cbv zeta. split.
    + repeat constructor; solve [eexists; reflexivity | simpl; lia].
    + eexists _, _. split; [vm_compute; reflexivity|].
      split; [reflexivity|]. split; [reflexivity|].
      intros m r Hm Hr. simpl in Hm.
      destruct Hm as [<- | [<- | [<- | []]]]; injection Hr as <-;
        split; vm_compute; discriminate.
  - eexists _, _. split; [vm_compute; reflexivity|].
    split; reflexivity.
Qed.

(** C10 on two members that disagree on both fields, (Hardware, Low) with
    weight 2 and (Software, High) with weight 3. *)
Lemma ensemble_pair_of_no_member_witness :
  let models := [(answering "Hardware" "Low", 2%Z);
                 (answering "Software" "High", 3%Z)] in
  exists tr p winning_category winning_priority,
    forward models vpn_ticket = (tr, Return p)
    /\ first_most_frequent (map fst (ballots models vpn_ticket)) winning_category
    /\ category p = recased CATEGORIES winning_category
    /\ category_confidence p
       = Some (share (map fst (ballots models vpn_ticket)) winning_category)
    /\ first_most_frequent (map snd (ballots models vpn_ticket)) winning_priority
    /\ priority p = recased PRIORITIES winning_priority
    /\ priority_confidence p
       = Some (share (map snd (ballots models vpn_ticket)) winning_priority).
Proof.
  refine (proj1 ensemble_pair_of_no_member _ vpn_ticket _).
  left. split; [eexists; reflexivity | simpl; lia].
Defined.

End EnsembleFacts.

(** ** Which wrappers normalise what they return *)

Module NormalisationFacts.

Import Wrappers Doubles ValidatorFacts.

(** C1, as amended. The validated wrapper invokes the operation once; when
    the operation answers, the wrapper returns a result whose category is
    in CATEGORIES and whose priority is in PRIORITIES, and when the
    operation fails, its error is raised unchanged. *)
Theorem validated_forward_in_vocabulary (classifier : predictor) (ticket : str) :
  match classifier ticket with
  | Return r =>
      exists p,
        ValidatedTicketClassifier.forward classifier ticket
        = ([Invoke ticket (Return r)], Return p)
        /\ in_vocabulary p
  | Raise e =>
      ValidatedTicketClassifier.forward classifier ticket
      = ([Invoke ticket (Raise e)], Raise e)
  end.
Proof.
  unfold ValidatedTicketClassifier.forward, invoke.
  destruct (classifier ticket) as [r | e]; [|reflexivity].
  destruct (validate_and_correct_total (result_category r) (result_priority r))
    as (c & p & v & E & Hc & Hp).
  cbn [bind lift]. rewrite E. cbn [bind ret app].
  eexists. split; [reflexivity|]. split; assumption.
Qed.

(** The end-to-end scenario: on the VPN ticket, with an operation that
    answers ("netwrk", "urgnt"), the validated wrapper returns
    ("Application", "Low") and reports it invalid. *)
Lemma validated_forward_vpn_scenario :
  exists tr p,
    ValidatedTicketClassifier.forward (answering "netwrk" "urgnt") vpn_ticket
    = (tr, Return p)
    /\ category p = lit "Application" /\ priority p = lit "Low"
    /\ is_valid p = Some false.
Proof.
  eexists _, _. split; [vm_compute; reflexivity|].
  repeat split; reflexivity.
Qed.

(** C1, as stated, fails: on an operation that answers
    ("netwrk", "urgnt"), the retry, the fallback and the ensemble wrappers
    each return a result outside the vocabularies. *)
Lemma wrappers_return_off_vocabulary :
  (exists tr p,
     RetryTicketClassifier.forward
       {| RetryTicketClassifier.max_retries := 3;
          RetryTicketClassifier.initial_delay := 1 |}
       (fun _ => answering "netwrk" "urgnt") vpn_ticket = (tr, Return p)
     /\ ~ in_vocabulary p)
  /\ (exists tr p,
        FallbackTicketClassifier.forward
          (answering "netwrk" "urgnt") (failing "down") vpn_ticket
        = (tr, Return p)
        /\ ~ in_vocabulary p)
  /\ (exists tr p,
        EnsembleTicketClassifier.forward
          [(answering "netwrk" "urgnt", 1%Z)] vpn_ticket = (tr, Return p)
        /\ ~ in_vocabulary p).
Proof.
  repeat split; eexists _, _; (split; [vm_compute; reflexivity|]);
    intros [Hc _]; vm_compute in Hc;
    repeat destruct Hc as [Hc | Hc]; try discriminate Hc; exact Hc.
Qed.

(** The fallback wrapper returns the fields of the operation that
    answered, as they are. *)
Lemma fallback_returns_raw_fields (primary_lm fallback_lm : predictor)
    (ticket : str) (tr : list event) (p : Prediction) :
  FallbackTicketClassifier.forward primary_lm fallback_lm ticket = (tr, Return p) ->
  exists r,
    (primary_lm ticket = Return r \/ fallback_lm ticket = Return r)
    /\ category p = result_category r /\ priority p = result_priority r.
Proof.
  unfold FallbackTicketClassifier.forward, invoke.
  destruct (primary_lm ticket) as [r | e] eqn:Ep; cbn [bind try_except ret app].
  - intros [= _ <-]. exists r. auto.
  - destruct (fallback_lm ticket) as [r | fe] eqn:Ef; simpl.
    + intros [= _ <-]. exists r. auto.
    + discriminate.
Qed.

(** The retry wrapper returns the fields of the invocation that answered,
    as they are. *)
Lemma retry_returns_raw_fields (self : RetryTicketClassifier.t)
    (classifier : nat -> predictor) (ticket : str) (tr : list event)
    (p : Prediction) :
  RetryTicketClassifier.forward self classifier ticket = (tr, Return p) ->
  exists i r,
    classifier i ticket = Return r
    /\ category p = result_category r /\ priority p = result_priority r.
Proof.
  unfold RetryTicketClassifier.forward.
  generalize (RetryTicketClassifier.range (RetryTicketClassifier.max_retries self)).
  generalize (@None exn). intros last_error todo. revert last_error tr.
  induction todo as [|attempt todo IH]; intros last_error tr;
    cbn [RetryTicketClassifier.attempts_loop].
  - discriminate.
  - unfold invoke.
    destruct (classifier (Z.to_nat attempt) ticket) as [r | e] eqn:Ec;
      cbn [bind try_except ret app].
    + intros [= _ <-]. exists (Z.to_nat attempt), r. auto.
    + destruct (attempt =? RetryTicketClassifier.max_retries self - 1)%Z;
        [discriminate|].
      destruct (float_times_int _ _) as [delay | oe]; cbn [lift bind app];
        [|discriminate].
      unfold time_sleep. destruct (Qle_bool 0 _); cbn [bind print raise app].
      * destruct (RetryTicketClassifier.attempts_loop self classifier ticket
                    todo (Some e)) as [tr' o] eqn:El.
        intros [= _ ->]. eapply IH. exact El.
      * discriminate.
Qed.

End NormalisationFacts.

(** ** More facts about [strip] and [lower] *)

Module StripFacts.

Import PyStrFacts Notions.

Lemma lstrip_spaces (ws s : str) :
  Forall (fun c => isspace c = true) ws -> lstrip (ws ++ s) = lstrip s.
Proof.
  induction 1 as [|c ws Hc _ IH]; [reflexivity|].
  simpl. rewrite Hc. exact IH.
Qed.

Lemma lstrip_all_spaces (ws : str) :
  Forall (fun c => isspace c = true) ws -> lstrip ws = [].
Proof.
  intros H. rewrite <- (app_nil_r ws). rewrite lstrip_spaces by exact H.
  reflexivity.
Qed.

Lemma rstrip_spaces (s ws : str) :
  Forall (fun c => isspace c = true) ws -> rstrip (s ++ ws) = rstrip s.
Proof.
  intros H. unfold rstrip. rewrite rev_app_distr, lstrip_spaces; [reflexivity|].
  apply Forall_rev, H.
Qed.

(** Stripping on the left leaves, behind a suffix of blanks, blanks only. *)
Lemma lstrip_app_spaces (s ws : str) :
  Forall (fun c => isspace c = true) ws ->
  exists ws', lstrip (s ++ ws) = lstrip s ++ ws'
              /\ Forall (fun c => isspace c = true) ws'.
Proof.
  intros H. induction s as [|c s IH]; simpl.
  - exists []. rewrite lstrip_all_spaces by exact H. auto.
  - destruct (isspace c); [exact IH|].
    exists ws. auto.
Qed.

(** Blanks around a string do not change what [strip] returns. *)
Lemma strip_spaces (ws s ws' : str) :
  Forall (fun c => isspace c = true) ws ->
  Forall (fun c => isspace c = true) ws' ->
  strip (ws ++ s ++ ws') = strip s.
Proof.
  intros H H'. unfold strip. rewrite lstrip_spaces by exact H.
  destruct (lstrip_app_spaces s ws' H') as (ws'' & -> & H'').
  apply rstrip_spaces, H''.
Qed.

Lemma lstrip_head (s : str) :
  lstrip s = [] \/ exists c t, lstrip s = c :: t /\ isspace c = false.
Proof.
  induction s as [|c s IH]; simpl; [left; reflexivity|].
  destruct (isspace c) eqn:E; [exact IH|].
  right. exists c, s. auto.
Qed.

Lemma lstrip_fixed (s : str) :
  (s = [] \/ exists c t, s = c :: t /\ isspace c = false) -> lstrip s = s.
Proof.
  intros [-> | (c & t & -> & E)]; simpl; [reflexivity|].
  rewrite E. reflexivity.
Qed.

Lemma lstrip_suffix (s : str) :
  exists ws, s = ws ++ lstrip s /\ Forall (fun c => isspace c = true) ws.
Proof.
  induction s as [|c s (ws & IH & Hws)]; simpl; [exists []; auto|].
  destruct (isspace c) eqn:E.
  - exists (c :: ws). simpl. rewrite <- IH. auto.
  - exists []. auto.
Qed.

(** [rstrip] removes a suffix of blanks. *)
Lemma rstrip_prefix (s : str) :
  exists ws, s = rstrip s ++ ws /\ Forall (fun c => isspace c = true) ws.
Proof.
  destruct (lstrip_suffix (rev s)) as (ws & E & Hws).
  exists (rev ws). split; [|apply Forall_rev, Hws].
  unfold rstrip. rewrite <- rev_app_distr, <- E, rev_involutive. reflexivity.
Qed.

Lemma strip_stripped (s : str) : stripped (strip s).
Proof.
  unfold stripped, strip. split.
  - apply lstrip_fixed.
    destruct (rstrip_prefix (lstrip s)) as (ws & E & Hws).
    destruct (rstrip (lstrip s)) as [|c l]; [left; reflexivity|].
    right. exists c, l. split; [reflexivity|].
    destruct (lstrip_head s) as [E' | (c' & t & E' & Hc)]; rewrite E' in E.
    + discriminate E.
    + injection E as <- _. exact Hc.
  - unfold rstrip. rewrite rev_involutive.
    apply lstrip_fixed. destruct (lstrip_head (rev (lstrip s))) as [E | H].
    + left. exact E.
    + right. exact H.
Qed.

Lemma strip_fixed (s : str) : stripped s -> strip s = s.
Proof.
  intros [H1 H2]. unfold strip, rstrip. rewrite H1, H2. apply rev_involutive.
Qed.

(** [strip] is idempotent. *)
Lemma strip_strip (s : str) : strip (strip s) = strip s.
Proof. apply strip_fixed, strip_stripped. Qed.

Ltac decide_comparisons :=
  repeat match goal with
         | |- context [N.leb ?a ?b] =>
             first [ replace (N.leb a b) with false
                       by (symmetry; apply N.leb_gt; lia)
                   | replace (N.leb a b) with true
                       by (symmetry; apply N.leb_le; lia) ]
         | |- context [N.eqb ?a ?b] =>
             first [ replace (N.eqb a b) with false
                       by (symmetry; apply N.eqb_neq; lia)
                   | replace (N.eqb a b) with true
                       by (symmetry; apply N.eqb_eq; lia) ]
         end.

(** Lowercasing neither makes nor unmakes a blank. *)
Lemma isspace_lower_char (c : char) : isspace (lower_char c) = isspace c.
Proof.
  unfold lower_char, between.
  destruct (N.leb 65 c && N.leb c 90) eqn:A.
  - apply andb_true_iff in A. destruct A as [A1 A2].
    apply N.leb_le in A1, A2.
    unfold isspace, between. decide_comparisons. reflexivity.
  - destruct (N.leb 192 c && N.leb c 222 && negb (N.eqb c 215)) eqn:B;
      [|reflexivity].
    apply andb_true_iff in B. destruct B as [B _].
    apply andb_true_iff in B. destruct B as [B1 B2].
    apply N.leb_le in B1, B2.
    unfold isspace, between. decide_comparisons. reflexivity.
Qed.

Lemma lower_char_idempotent (c : char) : lower_char (lower_char c) = lower_char c.
Proof.
  unfold lower_char, between.
  destruct (N.leb 65 c && N.leb c 90) eqn:A.
  - apply andb_true_iff in A. destruct A as [A1 A2].
    apply N.leb_le in A1, A2. decide_comparisons. reflexivity.
  - destruct (N.leb 192 c && N.leb c 222 && negb (N.eqb c 215)) eqn:B.
    + apply andb_true_iff in B. destruct B as [B _].
      apply andb_true_iff in B. destruct B as [B1 B2].
      apply N.leb_le in B1, B2. decide_comparisons. reflexivity.
    + rewrite A, B. reflexivity.
Qed.

Lemma lower_lower (s : str) : lower (lower s) = lower s.
Proof.
  unfold lower. rewrite map_map. apply map_ext, lower_char_idempotent.
Qed.

Lemma lstrip_lower (s : str) : lstrip (lower s) = lower (lstrip s).
Proof.
  induction s as [|c s IH]; [reflexivity|].
  simpl. rewrite isspace_lower_char. destruct (isspace c); [exact IH|reflexivity].
Qed.

(** [strip] and [lower] commute. *)
Lemma strip_lower (s : str) : strip (lower s) = lower (strip s).
Proof.
  unfold strip, rstrip. rewrite lstrip_lower.
  unfold lower at 1. rewrite <- map_rev. fold (lower (rev (lstrip s))).
  rewrite lstrip_lower. unfold lower. rewrite map_rev. reflexivity.
Qed.

End StripFacts.

(** ** More on the retry and the fallback executors *)

Module RetryMoreFacts.

Import RetryTicketClassifier Wrappers Doubles Notions RetryFacts.



Section SucceedsAfterFailures.

(** A classifier whose invocations on the ticket fail until invocation
    number [k] (from 1), which answers [r], within the bound; [k] is at most
    1025, so that every [2 ** attempt] of a wait has a float. *)
Variable self : t.
Variable classifier : nat -> predictor.
Variable ticket : str.
Variable errors : nat -> exn.
Variable r : result.
Variable k : nat.
Hypothesis delay_accepted : (0 <= initial_delay self)%Q.
Hypothesis within_bound : (Z.of_nat k <= max_retries self)%Z.
Hypothesis powers_have_floats : k <= 1025.
Hypothesis fails_before : forall i, i < k - 1 -> classifier i ticket = Raise (errors i).
Hypothesis answers_at : classifier (k - 1) ticket = Return r.




End SucceedsAfterFailures.


(** X2. With [max_retries <= 0] the retry executor never invokes the
    operation: it raises at once, and the message shows [None] for the
    error. *)
Theorem retry_without_attempts (self : t) (classifier : nat -> predictor)
    (ticket : str) :
  (max_retries self <= 0)%Z ->
  forward self classifier ticket
  = ([], Raise (Exception (lit "Failed after " ++ of_Z (max_retries self)
                           ++ lit " attempts: None"))).
Proof.
  intros H. unfold forward, range.
  replace (Z.to_nat (max_retries self)) with 0 by lia. reflexivity.
Qed.

Lemma retry_without_attempts_witness :
  forward {| max_retries := 0; initial_delay := 1 |}
          (fun _ => answering "Network" "High") vpn_ticket
  = ([], Raise (Exception (lit "Failed after 0 attempts: None"))).
Proof.
  refine (retry_without_attempts {| max_retries := 0; initial_delay := 1 |}
            (fun _ => answering "Network" "High") vpn_ticket _).
  simpl. lia.
Defined.



End RetryMoreFacts.

Module FallbackMoreFacts.

Import FallbackTicketClassifier Wrappers Doubles.

(** X4. When the primary operation answers, the fallback executor returns
    its fields tagged 'primary' after that single invocation: the fallback
    operation is not invoked, whatever it would have done. *)
Theorem fallback_primary_answers (primary_lm fallback_lm : predictor)
    (ticket : str) (r : result) :
  primary_lm ticket = Return r ->
  exists p,
    forward primary_lm fallback_lm ticket = ([Invoke ticket (Return r)], Return p)
    /\ model_used p = Some (lit "primary")
    /\ category p = result_category r /\ priority p = result_priority r
    /\ forall other_lm,
         forward primary_lm other_lm ticket
         = forward primary_lm fallback_lm ticket.
Proof.
  intros H. unfold forward, invoke. rewrite H. cbn [bind try_except ret app].
  eexists. repeat split; reflexivity.
Qed.

Lemma fallback_primary_answers_witness :
  exists p,
    forward (answering "Network" "High") (failing "refused") vpn_ticket
    = ([Invoke vpn_ticket (Return {| result_category := lit "Network";
                                     result_priority := lit "High" |})],
       Return p)
    /\ model_used p = Some (lit "primary")
    /\ category p = lit "Network" /\ priority p = lit "High"
    /\ forall other_lm,
         forward (answering "Network" "High") other_lm vpn_ticket
         = forward (answering "Network" "High") (failing "refused") vpn_ticket.
Proof.
  exact (fallback_primary_answers (answering "Network" "High")
           (failing "refused") vpn_ticket _ eq_refl).
Defined.

End FallbackMoreFacts.

(** ** More on the validator *)

Module ValidatorMoreFacts.

Import ValidatedTicketClassifier Vocabulary Notions PyStrFacts ValidatorFacts
       StripFacts Doubles.

Lemma eqb_sym (a b : str) : eqb a b = eqb b a.
Proof.
  destruct (eqb a b) eqn:E.
  - apply eqb_eq in E. subst. symmetry. apply eqb_refl.
  - symmetry. apply eqb_neq. apply eqb_neq in E. congruence.
Qed.

Lemma mem_find (vocabulary : list str) (field : str) :
  mem field (map lower vocabulary)
  = match find (fun v => eqb (lower v) field) vocabulary with
    | Some _ => true
    | None => false
    end.
Proof.
  unfold mem. induction vocabulary as [|v vocabulary IH]; [reflexivity|].
  simpl. rewrite (eqb_sym field). destruct (eqb (lower v) field); [reflexivity|].
  exact IH.
Qed.

Lemma next_filter_find {A} (f : A -> bool) (l : list A) :
  next (filter f l)
  = match find f l with
    | Some x => Return x
    | None => Raise StopIteration
    end.
Proof.
  induction l as [|a l IH]; [reflexivity|].
  simpl. destruct (f a); [reflexivity | exact IH].
Qed.

(** The validator is its two fields normalised one by one; the flag is the
    conjunction of theirs. *)
Lemma validate_and_correct_by_field (category priority : str) :
  validate_and_correct category priority
  = Return (fst (normalise_field CATEGORIES category_rules (lit "Application") category),
            fst (normalise_field PRIORITIES priority_rules (lit "Low") priority),
            snd (normalise_field CATEGORIES category_rules (lit "Application") category)
            && snd (normalise_field PRIORITIES priority_rules (lit "Low") priority)).
Proof.
  unfold validate_and_correct, normalise_field, valid_categories, valid_priorities.
  rewrite !mem_find, !next_filter_find.
  destruct (find (fun v => eqb (lower v) (lower (strip category))) CATEGORIES)
    as [c|];
    destruct (find (fun v => eqb (lower v) (lower (strip priority))) PRIORITIES)
      as [p|];
    cbn [negb and_then fst snd andb first_rule category_rules priority_rules
         existsb];
    rewrite ?orb_false_r;
    repeat match goal with
           | |- context [contains ?kw ?field] =>
               destruct (contains kw field);
               cbn [orb negb and_then fst snd andb]
           end; reflexivity.
Qed.

Lemma find_matches (vocabulary : list str) (raw : str) :
  matches_vocabulary vocabulary raw
  <-> exists v, find (fun v => eqb (lower v) (lower (strip raw))) vocabulary = Some v.
Proof.
  unfold matches_vocabulary. split.
  - intros (v & Hv & E).
    destruct (find _ vocabulary) as [w|] eqn:F; [exists w; reflexivity|].
    exfalso. apply (find_none _ _ F) in Hv. rewrite E, eqb_refl in Hv.
    discriminate Hv.
  - intros (v & F). apply find_some in F. destruct F as [Hv E].
    apply eqb_eq in E. exists v. auto.
Qed.

Lemma first_rule_matches (rules : list (list str * str)) (raw : str) :
  matches_heuristic (flat_map fst rules) raw
  <-> exists value, first_rule rules (lower (strip raw)) = Some value.
Proof.
  unfold matches_heuristic. induction rules as [|[kws value] rules IH].
  - simpl. split; [intros (kw & [] & _) | intros (v & [=])].
  - cbn [flat_map fst first_rule].
    destruct (existsb (fun kw => contains kw (lower (strip raw))) kws) eqn:E.
    + split; [intros _; exists value; reflexivity|]. intros _.
      apply existsb_exists in E. destruct E as (kw & Hkw & C).
      exists kw. split; [apply in_or_app; left; exact Hkw|].
      apply contains_substring, C.
    + rewrite <- IH. split.
      * intros (kw & Hkw & S). apply in_app_or in Hkw.
        destruct Hkw as [Hkw | Hkw]; [|exists kw; auto].
        exfalso. apply contains_substring in S.
        assert (T : existsb (fun kw => contains kw (lower (strip raw))) kws = true)
          by (apply existsb_exists; exists kw; auto).
        congruence.
      * intros (kw & Hkw & S). exists kw. split; [|exact S].
        apply in_or_app. right; exact Hkw.
Qed.

(** A field is reported valid exactly when it matches the vocabulary or a
    heuristic. *)
Lemma normalise_field_valid (vocabulary : list str)
    (rules : list (list str * str)) (default raw : str) :
  snd (normalise_field vocabulary rules default raw) = true
  <-> matches_vocabulary vocabulary raw
      \/ matches_heuristic (flat_map fst rules) raw.
Proof.
  rewrite find_matches, first_rule_matches. unfold normalise_field.
  destruct (find _ vocabulary) as [v|].
  - simpl. split; [intros _; left; exists v; reflexivity | reflexivity].
  - destruct (first_rule rules (lower (strip raw))) as [value|]; simpl.
    + split; [intros _; right; exists value; reflexivity | reflexivity].
    + split; [discriminate | intros [(v & [=]) | (v & [=])]].
Qed.

(** X5. The validity flag is true exactly when each field matches the
    vocabulary (whatever its case and surrounding blanks) or contains a
    keyword of the heuristics: a heuristic correction leaves the flag
    true, only a default clears it. *)
Theorem validity_flag_iff_matched (category priority : str) :
  exists c p flag,
    validate_and_correct category priority = Return (c, p, flag)
    /\ (flag = true
        <-> (matches_vocabulary CATEGORIES category
             \/ matches_heuristic category_keywords category)
            /\ (matches_vocabulary PRIORITIES priority
                \/ matches_heuristic priority_keywords priority)).
Proof.
  eexists _, _, _. split; [apply validate_and_correct_by_field|].
  rewrite andb_true_iff, !normalise_field_valid. reflexivity.
Qed.

(** X6. The validator follows ordered rules, field by field: a field that
    matches the vocabulary is given the vocabulary value; otherwise the
    first rule, in the order Hardware, Software, Network, Account (or
    Critical, Urgent, High, Medium), one of whose keywords it contains
    decides; otherwise the default is returned. The flag is the
    conjunction of the two fields' flags. *)
Theorem validate_and_correct_ordered_rules (category priority : str) :
  let c := normalise_field CATEGORIES category_rules (lit "Application") category in
  let p := normalise_field PRIORITIES priority_rules (lit "Low") priority in
  validate_and_correct category priority = Return (fst c, fst p, snd c && snd p).
Proof. apply validate_and_correct_by_field. Qed.

(** In each vocabulary, a lowercase belongs to one value only. *)
Lemma find_canonical (vocabulary : list str) (v field : str) :
  vocabulary = CATEGORIES \/ vocabulary = PRIORITIES ->
  In v vocabulary -> lower v = field ->
  find (fun w => eqb (lower w) field) vocabulary = Some v.
Proof.
  intros [-> | ->] Hv <-; simpl in Hv;
    repeat destruct Hv as [<- | Hv]; try (vm_compute; reflexivity);
    destruct Hv.
Qed.

(** X7. A field that matches a vocabulary value, whatever its case and
    surrounding blanks, is returned as that value, in its canonical casing:
    the vocabulary comes before the heuristics, and no two vocabulary
    values share a lowercase. *)
Theorem vocabulary_match_is_canonical (category priority : str) :
  (forall v, In v CATEGORIES -> lower v = lower (strip category) ->
             exists p flag,
               validate_and_correct category priority = Return (v, p, flag))
  /\ (forall v, In v PRIORITIES -> lower v = lower (strip priority) ->
                exists c flag,
                  validate_and_correct category priority = Return (c, v, flag)).
Proof.
  rewrite validate_and_correct_by_field. unfold normalise_field.
  split; intros v Hv E.
  - rewrite (find_canonical CATEGORIES v _ (or_introl eq_refl) Hv E).
    eexists _, _. reflexivity.
  - rewrite (find_canonical PRIORITIES v _ (or_intror eq_refl) Hv E).
    eexists _, _. reflexivity.
Qed.

Lemma vocabulary_match_is_canonical_witness :
  (exists p flag,
     validate_and_correct (lit "  HARDWARE ") (lit "urgent")
     = Return (lit "Hardware", p, flag))
  /\ (exists c flag,
        validate_and_correct (lit "  HARDWARE ") (lit "urgent")
        = Return (c, lit "Urgent", flag)).
Proof.
  destruct (vocabulary_match_is_canonical (lit "  HARDWARE ") (lit "urgent"))
    as [Hc Hp].
  split.
  - apply (Hc (lit "Hardware")); [simpl; auto | reflexivity].
  - apply (Hp (lit "Urgent")); [simpl; auto 10 | reflexivity].
Defined.

Lemma validate_and_correct_ext (x x' y y' : str) :
  lower (strip x) = lower (strip x') ->
  lower (strip y) = lower (strip y') ->
  validate_and_correct x y = validate_and_correct x' y'.
Proof.
  intros Hx Hy. rewrite !validate_and_correct_by_field.
  unfold normalise_field. rewrite Hx, Hy. reflexivity.
Qed.

(** X8. The validator looks at its fields through [strip] and [lower]
    only: blanks around a field and the case of its letters change
    nothing of what it returns. *)
Theorem validate_and_correct_ignores_case_and_blanks
    (x x' y y' bx ax by' ay : str) :
  blank bx -> blank ax -> blank by' -> blank ay ->
  lower x = lower x' -> lower y = lower y' ->
  validate_and_correct (bx ++ x ++ ax) (by' ++ y ++ ay)
  = validate_and_correct x' y'.
Proof.
  intros Hbx Hax Hby Hay Hx Hy. apply validate_and_correct_ext.
  - rewrite strip_spaces by assumption.
    rewrite <- !strip_lower, Hx. reflexivity.
  - rewrite strip_spaces by assumption.
    rewrite <- !strip_lower, Hy. reflexivity.
Qed.

Lemma validate_and_correct_ignores_case_and_blanks_witness :
  validate_and_correct (lit "  " ++ lit "NetWork" ++ lit " ")
                       ([9%N] ++ lit "HIGH" ++ [10%N])
  = validate_and_correct (lit "network") (lit "high").
Proof.
  apply validate_and_correct_ignores_case_and_blanks;
    try (repeat constructor); reflexivity.
Defined.

End ValidatorMoreFacts.

(** ** More on the ensemble voter *)

Module EnsembleMoreFacts.

Import EnsembleTicketClassifier Counter Vote Wrappers Doubles Notions
       PyStrFacts CounterFacts EnsembleFacts Vocabulary.

Lemma occurrences_le_length (l : list str) (v : str) :
  occurrences l v <= List.length l.
Proof. unfold occurrences. apply filter_length_le. Qed.

(** The share of the first of the most frequent values lies in (0, 1]. *)
Lemma share_bounds (l : list str) (w : str) :
  first_most_frequent l w -> (0 < share l w /\ share l w <= 1)%Q.
Proof.
  intros ((l1 & l2 & E & _) & _).
  assert (Hw : 0 < occurrences l w).
  { apply occurrences_In. rewrite E. apply in_elt. }
  pose proof (occurrences_le_length l w) as Hl.
  assert (Hlen : (0 < inject_Z (Z.of_nat (List.length l)))%Q).
  { change 0%Q with (inject_Z 0). rewrite <- Zlt_Qlt. lia. }
  unfold share. split.
  - apply Qlt_shift_div_l; [exact Hlen|]. rewrite Qmult_0_l.
    change 0%Q with (inject_Z 0). rewrite <- Zlt_Qlt. lia.
  - apply Qle_shift_div_r; [exact Hlen|]. rewrite Qmult_1_l.
    rewrite <- Zle_Qle. lia.
Qed.

(** X9. Whenever a ballot is cast, the ensemble returns a result whose two
    confidences are greater than 0 and at most 1. *)
Theorem ensemble_confidence_bounds (models : list (predictor * Z)) (ticket : str) :
  Exists (casts_ballot ticket) models ->
  exists tr p cc pc,
    forward models ticket = (tr, Return p)
    /\ category_confidence p = Some cc /\ priority_confidence p = Some pc
    /\ (0 < cc /\ cc <= 1 /\ 0 < pc /\ pc <= 1)%Q.
Proof.
  intros H. apply ballots_nonempty in H.
  destruct (forward_some_ballot models ticket H) as (wc & wp & E & Fc & Fp).
  destruct (share_bounds _ _ Fc) as [C1 C2].
  destruct (share_bounds _ _ Fp) as [P1 P2].
  eexists _, _, _, _. split; [exact E|].
  cbn [category_confidence priority_confidence]. auto 10.
Qed.

Lemma ensemble_confidence_bounds_witness :
  exists tr p cc pc,
    forward [(failing "down", 1%Z); (answering "Network" "High", 2%Z);
             (answering "Email" "High", 1%Z)] vpn_ticket = (tr, Return p)
    /\ category_confidence p = Some cc /\ priority_confidence p = Some pc
    /\ (0 < cc /\ cc <= 1 /\ 0 < pc /\ pc <= 1)%Q.
Proof.
  apply ensemble_confidence_bounds.
  right. left. split; [eexists; reflexivity | simpl; lia].
Defined.

(** Every ballot is the normalised answer of a member that casts one. *)
Lemma ballots_In (models : list (predictor * Z)) (ticket : str) (b : str * str) :
  In b (ballots models ticket) ->
  exists m r, In m models /\ fst m ticket = Return r
              /\ (1 <= snd m)%Z /\ b = normalized r.
Proof.
  unfold ballots. rewrite in_flat_map. intros (m & Hm & Hb).
  destruct (fst m ticket) as [r|e] eqn:E; [|destruct Hb].
  exists m, r. split; [exact Hm|]. split; [exact E|].
  split; [|apply repeat_spec in Hb; exact Hb].
  unfold predictor in *.
  destruct (Z.to_nat (snd m)) eqn:N; [destruct Hb | lia].
Qed.

Lemma occurrences_all (l : list str) (v : str) :
  (forall x, In x l -> x = v) -> occurrences l v = List.length l.
Proof.
  unfold occurrences. induction l as [|x l IH]; intros H; [reflexivity|].
  assert (Hx : x = v) by (apply H; left; reflexivity). subst x.
  simpl. rewrite eqb_refl. simpl. f_equal.
  apply IH. intros y Hy. apply H. right; exact Hy.
Qed.

(** X10. When every ballot cast names the same category (after [strip] and
    [lower]), the ensemble returns it, recased, with confidence 1; in
    particular a single successful member decides alone, however many
    members fail. *)
Theorem ensemble_unanimous_category (models : list (predictor * Z))
    (ticket : str) (v : str) :
  Exists (casts_ballot ticket) models ->
  (forall m r, In m models -> fst m ticket = Return r -> (1 <= snd m)%Z ->
               lower (strip (result_category r)) = v) ->
  exists tr p cc,
    forward models ticket = (tr, Return p)
    /\ category p = recased CATEGORIES v
    /\ category_confidence p = Some cc /\ (cc == 1)%Q.
Proof.
  intros H Hall. apply ballots_nonempty in H.
  destruct (forward_some_ballot models ticket H)
    as (wc & wp & E & ((l1 & l2 & El & _) & _) & _).
  assert (Hcats : forall x, In x (map fst (ballots models ticket)) -> x = v).
  { intros x Hx. apply in_map_iff in Hx. destruct Hx as (b & <- & Hb).
    destruct (ballots_In _ _ _ Hb) as (m & r & Hm & Hr & Hw & ->).
    simpl. eapply Hall; eassumption. }
  assert (wc = v) as -> by (apply Hcats; rewrite El; apply in_elt).
  eexists _, _, _. split; [exact E|].
  cbn [category category_confidence]. split; [reflexivity|].
  split; [reflexivity|].
  unfold share. rewrite occurrences_all by exact Hcats.
  apply Qmult_inv_r. intros Z0.
  destruct (ballots models ticket) as [|b bs]; [congruence|].
  discriminate Z0.
Qed.

Lemma ensemble_unanimous_category_witness :
  exists tr p cc,
    forward [(failing "down", 1%Z); (answering " EMAIL" "Low", 2%Z);
             (failing "refused", 5%Z)] vpn_ticket = (tr, Return p)
    /\ category p = recased CATEGORIES (lit "email")
    /\ category_confidence p = Some cc /\ (cc == 1)%Q.
Proof.
  apply ensemble_unanimous_category.
  - right. left. split; [eexists; reflexivity | simpl; lia].
  - intros m r Hm Hr _. simpl in Hm.
    destruct Hm as [<- | [<- | [<- | []]]]; try discriminate Hr.
    injection Hr as <-. reflexivity.
Defined.

Lemma recased_in_vocabulary (vocabulary : list str) (raw : str) :
  matches_vocabulary vocabulary raw ->
  In (recased vocabulary (lower (strip raw))) vocabulary.
Proof.
  intros (v & Hv & E). unfold recased.
  destruct (find _ vocabulary) as [c|] eqn:F.
  - apply find_some in F. apply F.
  - exfalso. apply (find_none _ _ F) in Hv. rewrite E, eqb_refl in Hv.
    discriminate Hv.
Qed.

(** X11. When every member that casts a ballot answers with fields that
    match the vocabularies (whatever their case and surrounding blanks), the
    ensemble returns a category in CATEGORIES and a priority in
    PRIORITIES. *)
Theorem ensemble_in_vocabulary (models : list (predictor * Z)) (ticket : str) :
  Exists (casts_ballot ticket) models ->
  (forall m r, In m models -> fst m ticket = Return r -> (1 <= snd m)%Z ->
               matches_vocabulary CATEGORIES (result_category r)
               /\ matches_vocabulary PRIORITIES (result_priority r)) ->
  exists tr p, forward models ticket = (tr, Return p) /\ in_vocabulary p.
Proof.
  intros H Hall. apply ballots_nonempty in H.
  destruct (forward_some_ballot models ticket H)
    as (wc & wp & E & ((c1 & c2 & Ec & _) & _) & ((p1 & p2 & Ep & _) & _)).
  eexists _, _. split; [exact E|]. unfold in_vocabulary.
  cbn [category priority]. split.
  - assert (Hin : In wc (map fst (ballots models ticket)))
      by (rewrite Ec; apply in_elt).
    apply in_map_iff in Hin. destruct Hin as (b & <- & Hb).
    destruct (ballots_In _ _ _ Hb) as (m & r & Hm & Hr & Hw & ->).
    apply recased_in_vocabulary. eapply Hall; eassumption.
  - assert (Hin : In wp (map snd (ballots models ticket)))
      by (rewrite Ep; apply in_elt).
    apply in_map_iff in Hin. destruct Hin as (b & <- & Hb).
    destruct (ballots_In _ _ _ Hb) as (m & r & Hm & Hr & Hw & ->).
    apply recased_in_vocabulary. eapply Hall; eassumption.
Qed.

Lemma ensemble_in_vocabulary_witness :
  exists tr p,
    forward [(answering "network " "HIGH", 1%Z); (failing "down", 1%Z);
             (answering "gadget" "asap", 0%Z)] vpn_ticket = (tr, Return p)
    /\ in_vocabulary p.
Proof.
  apply ensemble_in_vocabulary.
  - left. split; [eexists; reflexivity | simpl; lia].
  - intros m r Hm Hr Hw. simpl in Hm.
    destruct Hm as [<- | [<- | [<- | []]]]; try discriminate Hr.
    + injection Hr as <-. split.
      * exists (lit "Network"). split; [simpl; auto | reflexivity].
      * exists (lit "High"). split; [simpl; auto | reflexivity].
    + simpl in Hw. lia.
Defined.

(** What the ensemble returns or raises depends on the members through the
    ballots only, the number of models apart. *)
Lemma forward_same_ballots (models models' : list (predictor * Z)) (ticket : str) :
  ballots models ticket = ballots models' ticket ->
  same_vote (snd (forward models ticket)) (snd (forward models' ticket)).
Proof.
  intros H. unfold forward. rewrite !collect_ballots, H. cbn [app].
  destruct (ballots models' ticket) as [|b bs]; cbn [bind raise snd];
    [reflexivity|].
  unfold lift.
  repeat (match goal with
          | |- context [first_item ?x] => destruct (first_item x)
          | |- context [truediv ?x ?y] => destruct (truediv x y)
          end; cbn [bind ret snd app]);
    try reflexivity.
  simpl. auto.
Qed.

Lemma ballots_casting (models : list (predictor * Z)) (ticket : str) :
  ballots (filter (casting ticket) models) ticket = ballots models ticket.
Proof.
  unfold ballots. induction models as [|m models IH]; [reflexivity|].
  cbn [filter flat_map]. unfold casting at 1. unfold predictor in *.
  destruct (fst m ticket) as [r|e] eqn:E.
  - destruct (1 <=? snd m)%Z eqn:W.
    + cbn [flat_map]. rewrite E. f_equal. exact IH.
    + apply Z.leb_gt in W. replace (Z.to_nat (snd m)) with 0 by lia.
      exact IH.
  - exact IH.
Qed.

Lemma ballots_app (models models' : list (predictor * Z)) (ticket : str) :
  ballots (models ++ models') ticket
  = ballots models ticket ++ ballots models' ticket.
Proof. unfold ballots. apply flat_map_app. Qed.

Lemma ballots_repeat (lm : predictor) (n : nat) (ticket : str) :
  ballots (repeat (lm, 1%Z) n) ticket
  = match lm ticket with
    | Return r => repeat (normalized r) n
    | Raise _ => []
    end.
Proof.
  unfold ballots. induction n as [|n IH]; simpl.
  - destruct (lm ticket); reflexivity.
  - rewrite IH. destruct (lm ticket); reflexivity.
Qed.

Lemma ballots_unfolded (models : list (predictor * Z)) (ticket : str) :
  ballots (unfolded models) ticket = ballots models ticket.
Proof.
  unfold unfolded. induction models as [|m models IH]; [reflexivity|].
  cbn [flat_map]. rewrite ballots_app, ballots_repeat, IH.
  unfold ballots at 2. cbn [flat_map]. reflexivity.
Qed.

(** X12. Members that fail, and members whose weight is below 1, have no
    part in the vote: without them the ensemble raises the same error or
    returns the same category, priority and confidences. *)
Theorem ensemble_ignores_members_without_ballot
    (models : list (predictor * Z)) (ticket : str) :
  same_vote (snd (forward (filter (casting ticket) models) ticket))
            (snd (forward models ticket)).
Proof. apply forward_same_ballots, ballots_casting. Qed.

(** X13. A weight is a multiplicity: a member of weight [w] votes as [w]
    members of weight 1 that answer as it does. *)
Theorem ensemble_weight_is_multiplicity
    (models : list (predictor * Z)) (ticket : str) :
  same_vote (snd (forward (unfolded models) ticket))
            (snd (forward models ticket)).
Proof. apply forward_same_ballots, ballots_unfolded. Qed.

End EnsembleMoreFacts.

(** ** The modules of modules.py *)

Module ModulesFacts.

Import Vocabulary Notions Vote Wrappers Doubles PyStrFacts StripFacts
       ValidatorMoreFacts CounterFacts.

(** What the simple validator returns for an answer: each field stripped,
    or replaced by the default when its lowercase is not in the
    vocabulary. *)
Lemma validated_classifier_fields (classifier : predictor) (ticket : str)
    (r : result) :
  classifier ticket = Return r ->
  exists tr p,
    ValidatedClassifier.forward classifier ticket = (tr, Return p)
    /\ (category p = strip (result_category r)
        /\ matches_vocabulary CATEGORIES (result_category r)
        \/ category p = lit "Application"
           /\ ~ matches_vocabulary CATEGORIES (result_category r))
    /\ (priority p = strip (result_priority r)
        /\ matches_vocabulary PRIORITIES (result_priority r)
        \/ priority p = lit "Medium"
           /\ ~ matches_vocabulary PRIORITIES (result_priority r)).
Proof.
  intros H. unfold ValidatedClassifier.forward. rewrite H.
  unfold ValidatedClassifier.valid_categories, ValidatedClassifier.valid_priorities.
  destruct (mem (lower (strip (result_category r))) (map lower CATEGORIES)) eqn:C;
    destruct (mem (lower (strip (result_priority r))) (map lower PRIORITIES)) eqn:P;
    cbn [negb]; eexists _, _; (split; [reflexivity|]); cbn [category priority];
    split;
    first [ left; split; [reflexivity|];
            apply RewardFacts.matches_vocabulary_mem; assumption
          | right; split; [reflexivity|];
            rewrite RewardFacts.matches_vocabulary_mem; congruence ].
Qed.

Lemma stripped_literal (s : str) : strip s = s -> stripped s.
Proof. intros <-. apply strip_stripped. Qed.

(** X14. What the simple validator of modules.py returns is in the
    vocabularies up to case only: a field whose stripped, lowercased answer
    is in the vocabulary is returned as the stripped answer, with the casing
    of the answer, and a field whose answer is not is replaced by the
    default, "Application" for the category and "Medium" for the
    priority. *)
Theorem validated_classifier_valid_up_to_case (classifier : predictor)
    (ticket : str) (r : result) :
  classifier ticket = Return r ->
  exists tr p,
    ValidatedClassifier.forward classifier ticket = (tr, Return p)
    /\ matches_vocabulary CATEGORIES (category p)
    /\ matches_vocabulary PRIORITIES (priority p)
    /\ (matches_vocabulary CATEGORIES (result_category r)
        /\ category p = strip (result_category r)
        \/ ~ matches_vocabulary CATEGORIES (result_category r)
           /\ category p = lit "Application")
    /\ (matches_vocabulary PRIORITIES (result_priority r)
        /\ priority p = strip (result_priority r)
        \/ ~ matches_vocabulary PRIORITIES (result_priority r)
           /\ priority p = lit "Medium").
Proof.
  intros H.
  destruct (validated_classifier_fields classifier ticket r H)
    as (tr & p & E & Hc & Hp).
  exists tr, p. split; [exact E|].
  split; [|split; [|split]].
  - destruct Hc as [[-> (v & Hv & Ev)] | [-> _]].
    + exists v. rewrite strip_strip. auto.
    + exists (lit "Application"). split; [simpl; auto | reflexivity].
  - destruct Hp as [[-> (v & Hv & Ev)] | [-> _]].
    + exists v. rewrite strip_strip. auto.
    + exists (lit "Medium"). split; [simpl; auto | reflexivity].
  - destruct Hc as [[Ec M] | [Ec M]]; [left | right]; split; assumption.
  - destruct Hp as [[Ep M] | [Ep M]]; [left | right]; split; assumption.
Qed.

Lemma validated_classifier_valid_up_to_case_witness :
  exists tr p,
    ValidatedClassifier.forward (answering " hardware" "asap") vpn_ticket
    = (tr, Return p)
    /\ matches_vocabulary CATEGORIES (category p)
    /\ matches_vocabulary PRIORITIES (priority p)
    /\ (matches_vocabulary CATEGORIES (lit " hardware")
        /\ category p = strip (lit " hardware")
        \/ ~ matches_vocabulary CATEGORIES (lit " hardware")
           /\ category p = lit "Application")
    /\ (matches_vocabulary PRIORITIES (lit "asap")
        /\ priority p = strip (lit "asap")
        \/ ~ matches_vocabulary PRIORITIES (lit "asap")
           /\ priority p = lit "Medium").
Proof.
  exact (validated_classifier_valid_up_to_case (answering " hardware" "asap")
           vpn_ticket _ eq_refl).
Defined.

(** The casing is indeed kept: the answer " hardware" is returned as
    "hardware", which is not a value of CATEGORIES. *)
Lemma validated_classifier_keeps_case :
  exists tr p,
    ValidatedClassifier.forward (answering " hardware" "asap") vpn_ticket
    = (tr, Return p)
    /\ category p = lit "hardware" /\ ~ In (category p) CATEGORIES
    /\ priority p = lit "Medium".
Proof.
  eexists _, _. split; [vm_compute; reflexivity|].
  split; [reflexivity|]. split; [|reflexivity].
  intros H. vm_compute in H.
  repeat destruct H as [H | H]; try discriminate H; exact H.
Qed.

(** X15. The strict validator of patterns.py accepts whatever the simple
    validator of modules.py returns: it reports it valid, and changes the
    casing only. *)
Theorem strict_validator_accepts_simple (classifier : predictor)
    (ticket : str) (r : result) :
  classifier ticket = Return r ->
  exists tr p c q,
    ValidatedClassifier.forward classifier ticket = (tr, Return p)
    /\ ValidatedTicketClassifier.validate_and_correct (category p) (priority p)
       = Return (c, q, true)
    /\ lower c = lower (category p) /\ lower q = lower (priority p).
Proof.
  intros H.
  destruct (validated_classifier_fields classifier ticket r H)
    as (tr & p & E & Hc & Hp).
  assert (Sc : stripped (category p)).
  { destruct Hc as [[-> _] | [-> _]];
      [apply strip_stripped | apply stripped_literal; reflexivity]. }
  assert (Sp : stripped (priority p)).
  { destruct Hp as [[-> _] | [-> _]];
      [apply strip_stripped | apply stripped_literal; reflexivity]. }
  assert (Mc : matches_vocabulary CATEGORIES (category p)).
  { destruct Hc as [[-> (v & Hv & Ev)] | [-> _]].
    - exists v. rewrite strip_strip. auto.
    - exists (lit "Application"). split; [simpl; auto | reflexivity]. }
  assert (Mp : matches_vocabulary PRIORITIES (priority p)).
  { destruct Hp as [[-> (v & Hv & Ev)] | [-> _]].
    - exists v. rewrite strip_strip. auto.
    - exists (lit "Medium"). split; [simpl; auto | reflexivity]. }
  exists tr, p. rewrite validate_and_correct_by_field. unfold normalise_field.
  apply find_matches in Mc. destruct Mc as (c & Fc).
  apply find_matches in Mp. destruct Mp as (q & Fq).
  rewrite Fc, Fq. exists c, q. split; [exact E|]. split; [reflexivity|].
  apply find_some in Fc. apply find_some in Fq.
  destruct Fc as [_ Fc]. destruct Fq as [_ Fq].
  apply eqb_eq in Fc, Fq.
  rewrite (strip_fixed _ Sc) in Fc. rewrite (strip_fixed _ Sp) in Fq. auto.
Qed.

Lemma strict_validator_accepts_simple_witness :
  exists tr p c q,
    ValidatedClassifier.forward (answering " hardware" "asap") vpn_ticket
    = (tr, Return p)
    /\ ValidatedTicketClassifier.validate_and_correct (category p) (priority p)
       = Return (c, q, true)
    /\ lower c = lower (category p) /\ lower q = lower (priority p).
Proof.
  exact (strict_validator_accepts_simple (answering " hardware" "asap")
           vpn_ticket _ eq_refl).
Defined.

(** X16. The two validators do not share their priority default: for an
    answer whose priority matches neither the vocabulary nor a heuristic,
    the simple validator of modules.py returns "Medium" and the strict one
    of patterns.py returns "Low". *)
Theorem validators_disagree_on_priority_default (classifier : predictor)
    (ticket : str) (r : result) :
  classifier ticket = Return r ->
  ~ matches_vocabulary PRIORITIES (result_priority r) ->
  ~ matches_heuristic priority_keywords (result_priority r) ->
  exists tr p tr' p',
    ValidatedClassifier.forward classifier ticket = (tr, Return p)
    /\ ValidatedTicketClassifier.forward classifier ticket = (tr', Return p')
    /\ priority p = lit "Medium" /\ priority p' = lit "Low"
    /\ is_valid p' = Some false.
Proof.
  intros H Hv Hh.
  destruct (validated_classifier_fields classifier ticket r H)
    as (tr & p & E & _ & Hp).
  exists tr, p. unfold ValidatedTicketClassifier.forward, invoke.
  rewrite H. cbn [bind lift]. rewrite validate_and_correct_by_field.
  cbn [bind lift ret app].
  eexists _, _. split; [exact E|]. split; [reflexivity|].
  cbn [priority is_valid]. split; [tauto|].
  assert (N : normalise_field PRIORITIES priority_rules (lit "Low")
                (result_priority r) = (lit "Low", false)).
  { unfold normalise_field.
    destruct (find _ PRIORITIES) as [v|] eqn:F.
    { exfalso. apply Hv, find_matches. exists v. exact F. }
    destruct (first_rule priority_rules _) as [value|] eqn:R.
    { exfalso. apply Hh. apply (first_rule_matches priority_rules).
      exists value. exact R. }
    reflexivity. }
  rewrite N. cbn [fst snd]. rewrite andb_false_r. auto.
Qed.

Lemma validators_disagree_on_priority_default_witness :
  exists tr p tr' p',
    ValidatedClassifier.forward (answering "Network" "asap") vpn_ticket
    = (tr, Return p)
    /\ ValidatedTicketClassifier.forward (answering "Network" "asap") vpn_ticket
       = (tr', Return p')
    /\ priority p = lit "Medium" /\ priority p' = lit "Low"
    /\ is_valid p' = Some false.
Proof.
  refine (validators_disagree_on_priority_default (answering "Network" "asap")
            vpn_ticket _ eq_refl _ _).
  - intros (v & Hv & E). simpl in Hv.
    repeat destruct Hv as [<- | Hv]; try discriminate E. exact Hv.
  - intros (kw & Hk & S). apply contains_substring in S. simpl in Hk.
    repeat destruct Hk as [<- | Hk]; try discriminate S. exact Hk.
Defined.

(** The loop of the simple ensemble on classifiers that all answer. *)
Lemma ensemble_classifier_collect (classifiers : list predictor) (ticket : str)
    (categories priorities : list str) :
  Forall (fun c => exists r, c ticket = Return r) classifiers ->
  EnsembleClassifier.collect classifiers ticket categories priorities
  = (map (fun c => Invoke ticket (c ticket)) classifiers,
     Return (categories ++ map result_category (answers classifiers ticket),
             priorities ++ map result_priority (answers classifiers ticket))).
Proof.
  intros H. revert categories priorities.
  induction H as [|c classifiers (r & Hr) _ IH]; intros categories priorities.
  - simpl. rewrite !app_nil_r. reflexivity.
  - cbn [EnsembleClassifier.collect map]. unfold invoke, answers.
    cbn [flat_map]. rewrite Hr. cbn [bind app]. rewrite IH.
    fold (answers classifiers ticket). cbn [map app].
    rewrite <- !app_assoc. reflexivity.
Qed.

(** X17. The simple ensemble of modules.py, when all its classifiers answer:
    with no classifier it raises IndexError; otherwise each field it
    returns is the first of the most frequent answers for that field, the
    answers being compared as they are, neither stripped nor lowercased. *)
Theorem ensemble_classifier_majority (classifiers : list predictor)
    (ticket : str) :
  Forall (fun c => exists r, c ticket = Return r) classifiers ->
  match classifiers with
  | [] =>
      EnsembleClassifier.forward classifiers ticket
      = ([], Raise (IndexError (lit "list index out of range")))
  | _ :: _ =>
      exists p,
        EnsembleClassifier.forward classifiers ticket
        = (map (fun c => Invoke ticket (c ticket)) classifiers, Return p)
        /\ first_most_frequent
             (map result_category (answers classifiers ticket)) (category p)
        /\ first_most_frequent
             (map result_priority (answers classifiers ticket)) (priority p)
  end.
Proof.
  intros H. destruct classifiers as [|c classifiers]; [reflexivity|].
  unfold EnsembleClassifier.forward.
  rewrite (ensemble_classifier_collect _ ticket [] [] H). cbn [app bind].
  inversion H as [|? ? (r & Hr) _]; subst.
  unfold answers. cbn [flat_map]. rewrite Hr.
  fold (answers classifiers ticket). cbn [app map].
  destruct (most_common_1_of_list (result_category r)
              (map result_category (answers classifiers ticket)))
    as (wc & Ec & _ & Sc & Mc).
  destruct (most_common_1_of_list (result_priority r)
              (map result_priority (answers classifiers ticket)))
    as (wp & Ep & _ & Sp & Mp).
  rewrite Ec, Ep.
  cbn [EnsembleTicketClassifier.first_item lift bind ret app fst].
  eexists. split; [rewrite !app_nil_r; reflexivity|].
  cbn [category priority]. split; split; assumption.
Qed.

Lemma ensemble_classifier_majority_witness :
  exists p,
    EnsembleClassifier.forward
      [answering "hardware" "Low"; answering "Hardware" "High";
       answering "Hardware" "High"] vpn_ticket
    = (map (fun c : predictor => Invoke vpn_ticket (c vpn_ticket))
           [answering "hardware" "Low"; answering "Hardware" "High";
            answering "Hardware" "High"], Return p)
    /\ first_most_frequent
         (map result_category
              (answers [answering "hardware" "Low"; answering "Hardware" "High";
                        answering "Hardware" "High"] vpn_ticket)) (category p)
    /\ first_most_frequent
         (map result_priority
              (answers [answering "hardware" "Low"; answering "Hardware" "High";
                        answering "Hardware" "High"] vpn_ticket)) (priority p).
Proof.
  apply (ensemble_classifier_majority
           [answering "hardware" "Low"; answering "Hardware" "High";
            answering "Hardware" "High"] vpn_ticket).
  repeat constructor; eexists; reflexivity.
Defined.

(** X18. The simple ensemble of modules.py catches nothing: the first
    classifier that fails ends the vote with its error, the classifiers
    after it are not invoked, and the answers already given are lost. *)
Theorem ensemble_classifier_fails_fast (before after : list predictor)
    (failing_one : predictor) (ticket : str) (e : exn) :
  Forall (fun c => exists r, c ticket = Return r) before ->
  failing_one ticket = Raise e ->
  EnsembleClassifier.forward (before ++ failing_one :: after) ticket
  = (map (fun c => Invoke ticket (c ticket)) (before ++ [failing_one]), Raise e).
Proof.
  intros H He. unfold EnsembleClassifier.forward.
  assert (C : forall categories priorities,
             EnsembleClassifier.collect (before ++ failing_one :: after) ticket
               categories priorities
             = (map (fun c => Invoke ticket (c ticket)) (before ++ [failing_one]),
                Raise e)).
  { induction H as [|c before (r & Hr) _ IH]; intros categories priorities.
    - cbn [app EnsembleClassifier.collect map]. unfold invoke. rewrite He.
      reflexivity.
    - cbn [app EnsembleClassifier.collect map]. unfold invoke. rewrite Hr.
      cbn [bind]. rewrite IH. reflexivity. }
  rewrite C. reflexivity.
Qed.

Lemma ensemble_classifier_fails_fast_witness :
  EnsembleClassifier.forward
    ([answering "Hardware" "High"] ++ failing "down"
       :: [answering "Hardware" "High"; answering "Hardware" "High"]) vpn_ticket
  = (map (fun c : predictor => Invoke vpn_ticket (c vpn_ticket))
         ([answering "Hardware" "High"] ++ [failing "down"]),
     Raise (Exception (lit "down"))).
Proof.
  apply ensemble_classifier_fails_fast; [|reflexivity].
  repeat constructor. eexists. reflexivity.
Defined.

End ModulesFacts.

(** ** The metrics *)

Module MetricsFacts.

Import Metrics Vocabulary Notions PyStrFacts ValidatorMoreFacts Doubles.

(** X19. The exact-match metric is the product of the category-only and
    the priority-only metrics: it is 1 when both lowercased, stripped
    fields agree with the example, and 0 otherwise. *)
Theorem exact_match_is_product (example : example) (prediction : Prediction) :
  (exact_match_metric example prediction
   == category_only_metric example prediction
      * priority_only_metric example prediction)%Q
  /\ (exact_match_metric example prediction == 1
      \/ exact_match_metric example prediction == 0)%Q.
Proof.
  unfold exact_match_metric, category_only_metric, priority_only_metric.
  destruct (eqb _ _); destruct (eqb _ _); split;
    first [reflexivity | left; reflexivity | right; reflexivity].
Qed.

(** X20. The three graded metrics are ordered on every example and
    prediction: exact match is at most the metric of main.py, which is at
    most the partial match, all within [0, 1]; and the partial match is 1
    exactly when the exact match is. *)
Theorem metrics_are_ordered (example : example) (prediction : Prediction) :
  (0 <= exact_match_metric example prediction
   /\ exact_match_metric example prediction
      <= evaluate_classifier example prediction
   /\ evaluate_classifier example prediction
      <= partial_match_metric example prediction
   /\ partial_match_metric example prediction <= 1
   /\ (partial_match_metric example prediction == 1
       <-> exact_match_metric example prediction == 1))%Q.
Proof.
  unfold exact_match_metric, evaluate_classifier, partial_match_metric.
  destruct (eqb _ _); destruct (eqb _ _); cbn [andb orb];
    repeat split; try (unfold Qle; simpl; lia);
    try (intros H; first [exact H | reflexivity | discriminate H]).
Qed.

(** The values of the two vocabularies carry no surrounding blank. *)
Lemma vocabulary_stripped (vocabulary : list str) (v : str) :
  vocabulary = CATEGORIES \/ vocabulary = PRIORITIES ->
  In v vocabulary -> strip v = v.
Proof.
  intros [-> | ->] Hv; simpl in Hv;
    repeat destruct Hv as [<- | Hv]; try (vm_compute; reflexivity);
    destruct Hv.
Qed.

(** A field that agrees with a label of the vocabulary still agrees with it
    once normalised. *)
Lemma normalise_field_keeps_match (vocabulary : list str)
    (rules : list (list str * str)) (default raw label : str) :
  vocabulary = CATEGORIES \/ vocabulary = PRIORITIES ->
  matches_vocabulary vocabulary label ->
  eqb (lower (strip raw)) (lower (strip label)) = true ->
  eqb (lower (strip (fst (normalise_field vocabulary rules default raw))))
      (lower (strip label)) = true.
Proof.
  intros HV M E. apply eqb_eq in E. apply eqb_eq.
  unfold normalise_field. rewrite E.
  apply find_matches in M. destruct M as (v & F). rewrite F. cbn [fst].
  apply find_some in F. destruct F as [Hv Ev]. apply eqb_eq in Ev.
  rewrite (vocabulary_stripped vocabulary v HV Hv). exact Ev.
Qed.

(** X21. Validating never lowers a score against an example whose labels
    are in the vocabularies: for the same answer of the operation, the
    exact-match and the partial-match scores of the validated wrapper's
    result are at least those of the unvalidated result. *)
Theorem validation_never_lowers_score (classifier : predictor) (ticket : str)
    (r : result) (example : example) :
  classifier ticket = Return r ->
  matches_vocabulary CATEGORIES (ex_category example) ->
  matches_vocabulary PRIORITIES (ex_priority example) ->
  exists tr p tr' p',
    SimpleTicketClassifier.forward classifier ticket = (tr, Return p)
    /\ ValidatedTicketClassifier.forward classifier ticket = (tr', Return p')
    /\ (exact_match_metric example p <= exact_match_metric example p')%Q
    /\ (partial_match_metric example p <= partial_match_metric example p')%Q.
Proof.
  intros H Mc Mp.
  unfold SimpleTicketClassifier.forward, ValidatedTicketClassifier.forward, invoke.
  rewrite H. cbn [bind lift]. rewrite validate_and_correct_by_field.
  cbn [bind lift ret app].
  eexists _, _, _, _. split; [reflexivity|]. split; [reflexivity|].
  unfold exact_match_metric, partial_match_metric. cbn [category priority].
  pose proof (normalise_field_keeps_match CATEGORIES category_rules
                (lit "Application") (result_category r) (ex_category example)
                (or_introl eq_refl) Mc) as Kc.
  pose proof (normalise_field_keeps_match PRIORITIES priority_rules
                (lit "Low") (result_priority r) (ex_priority example)
                (or_intror eq_refl) Mp) as Kp.
  destruct (eqb (lower (strip (result_category r))) _);
    destruct (eqb (lower (strip (result_priority r))) _);
    try rewrite (Kc eq_refl); try rewrite (Kp eq_refl);
    repeat match goal with
           | |- context [eqb ?a ?b] => destruct (eqb a b)
           end;
    cbn [andb]; split; unfold Qle; simpl; lia.
Qed.

Lemma validation_never_lowers_score_witness :
  exists tr p tr' p',
    SimpleTicketClassifier.forward (answering "hard disk" " HIGH") vpn_ticket
    = (tr, Return p)
    /\ ValidatedTicketClassifier.forward (answering "hard disk" " HIGH") vpn_ticket
       = (tr', Return p')
    /\ (exact_match_metric
          {| ex_ticket := vpn_ticket; ex_category := lit "Hardware";
             ex_priority := lit "High" |} p
        <= exact_match_metric
             {| ex_ticket := vpn_ticket; ex_category := lit "Hardware";
                ex_priority := lit "High" |} p')%Q
    /\ (partial_match_metric
          {| ex_ticket := vpn_ticket; ex_category := lit "Hardware";
             ex_priority := lit "High" |} p
        <= partial_match_metric
             {| ex_ticket := vpn_ticket; ex_category := lit "Hardware";
                ex_priority := lit "High" |} p')%Q.
Proof.
  refine (validation_never_lowers_score (answering "hard disk" " HIGH")
            vpn_ticket _
            {| ex_ticket := vpn_ticket; ex_category := lit "Hardware";
               ex_priority := lit "High" |} eq_refl _ _).
  - exists (lit "Hardware"). split; [simpl; auto | reflexivity].
  - exists (lit "High"). split; [simpl; auto | reflexivity].
Defined.

(** X22. A prediction that matches exactly an example whose labels are in
    the vocabularies gets the full reward of the refinement engine. *)
Theorem exact_match_gets_full_reward (example : example) (prediction : Prediction) :
  (exact_match_metric example prediction == 1)%Q ->
  matches_vocabulary CATEGORIES (ex_category example) ->
  matches_vocabulary PRIORITIES (ex_priority example) ->
  (RefinedTicketClassifier._reward_function
     {| RefinedTicketClassifier.pred_category := Some (category prediction);
        RefinedTicketClassifier.pred_priority := Some (priority prediction) |}
   == 1)%Q.
Proof.
  unfold exact_match_metric. intros E Mc Mp.
  destruct (eqb (lower (strip (category prediction))) _) eqn:Ec;
    [|discriminate E].
  destruct (eqb (lower (strip (priority prediction))) _) eqn:Ep;
    [|discriminate E].
  apply eqb_eq in Ec, Ep.
  apply RewardFacts.matches_vocabulary_mem in Mc, Mp.
  unfold RefinedTicketClassifier._reward_function.
  cbn [RefinedTicketClassifier.pred_category RefinedTicketClassifier.pred_priority].
  unfold RefinedTicketClassifier.valid_categories,
         RefinedTicketClassifier.valid_priorities.
  rewrite Ec, Ep, Mc, Mp. reflexivity.
Qed.

Lemma exact_match_gets_full_reward_witness :
  (RefinedTicketClassifier._reward_function
     {| RefinedTicketClassifier.pred_category := Some (lit " network");
        RefinedTicketClassifier.pred_priority := Some (lit "HIGH") |}
   == 1)%Q.
Proof.
  refine (exact_match_gets_full_reward
            {| ex_ticket := vpn_ticket; ex_category := lit "Network";
               ex_priority := lit "High" |}
            {| category := lit " network"; priority := lit "HIGH";
               is_valid := None; attempts := None; model_used := None;
               category_confidence := None; priority_confidence := None;
               num_models := None |} _ _ _).
  - reflexivity.
  - exists (lit "Network"). split; [simpl; auto | reflexivity].
  - exists (lit "High"). split; [simpl; auto | reflexivity].
Defined.

End MetricsFacts.

(** ** The evaluation of a module on a dataset *)

Module EvaluationFacts.

Import Metrics Evaluation Notions Doubles.

(** X23. On an empty dataset [evaluate_module] raises ZeroDivisionError,
    whatever the module and the metric, without calling either. *)
Theorem evaluate_module_empty_dataset (module : module)
    (metric : example -> Prediction -> Q) (verbose : bool) :
  evaluate_module module [] metric verbose
  = ([], Raise (ZeroDivisionError (lit "division by zero"))).
Proof. reflexivity. Qed.

Section TotalModule.

(** A module that answers every call, and a metric with scores in [0, 1]. *)
Variable module : module.
Variable metric : example -> Prediction -> Q.
Variable verbose : bool.
Hypothesis module_answers : forall i ticket, exists tr p, module i ticket = (tr, Return p).
Hypothesis metric_bounds : forall e p, (0 <= metric e p /\ metric e p <= 1)%Q.

Lemma evaluate_loop_total (n_examples : Z) (dataset : list example) (i : nat)
    (total_score : Q) :
  exists tr total,
    evaluate_loop module metric verbose n_examples i dataset total_score
    = (tr, Return total)
    /\ (total_score <= total
        /\ total <= total_score + inject_Z (Z.of_nat (List.length dataset)))%Q.
Proof.
  revert i total_score. induction dataset as [|e dataset IH]; intros i total_score.
  - exists [], total_score. split; [reflexivity|].
    split; [apply Qle_refl|]. simpl. rewrite Qplus_0_r. apply Qle_refl.
  - cbn [evaluate_loop].
    destruct (module_answers i (ex_ticket e)) as (tr & p & ->).
    destruct (IH (S i) (total_score + metric e p)%Q) as (tr' & total & -> & L & U).
    eexists _, total. split; [reflexivity|].
    destruct (metric_bounds e p) as [M0 M1].
    cbn [List.length]. rewrite Nat2Z.inj_succ, <- Z.add_1_r, inject_Z_plus.
    split.
    + eapply Qle_trans; [|exact L].
      rewrite <- (Qplus_0_r total_score) at 1.
      apply Qplus_le_r. exact M0.
    + eapply Qle_trans; [exact U|].
      rewrite (Qplus_comm (inject_Z (Z.of_nat (List.length dataset)))).
      rewrite !Qplus_assoc. apply Qplus_le_l, Qplus_le_r. exact M1.
Qed.

(** X24. For a module that answers every call and a metric with scores in
    [0, 1], [evaluate_module] on a dataset that is not empty returns an
    average, and the average lies in [0, 1]. *)
Theorem evaluate_module_average_bounds (dataset : list example) :
  dataset <> [] ->
  exists tr average,
    evaluate_module module dataset metric verbose = (tr, Return average)
    /\ (0 <= average /\ average <= 1)%Q.
Proof.
  intros H. unfold evaluate_module.
  destruct (evaluate_loop_total (Z.of_nat (List.length dataset)) dataset 0 0%Q)
    as (tr & total & -> & L & U).
  assert (Hn : (0 < Z.of_nat (List.length dataset))%Z)
    by (destruct dataset; [congruence | simpl; lia]).
  replace (Z.of_nat (List.length dataset) =? 0)%Z with false
    by (symmetry; apply Z.eqb_neq; lia).
  assert (Hq : (0 < inject_Z (Z.of_nat (List.length dataset)))%Q)
    by (change 0%Q with (inject_Z 0); rewrite <- Zlt_Qlt; exact Hn).
  eexists _, _. split; [reflexivity|]. split.
  - apply Qle_shift_div_l; [exact Hq|]. rewrite Qmult_0_l. exact L.
  - apply Qle_shift_div_r; [exact Hq|]. rewrite Qmult_1_l.
    rewrite Qplus_0_l in U. exact U.
Qed.

End TotalModule.

Lemma evaluate_module_average_bounds_witness :
  exists tr average,
    evaluate_module
      (fun _ ticket => SimpleTicketClassifier.forward (answering "Network" "High") ticket)
      [{| ex_ticket := vpn_ticket; ex_category := lit "Network";
          ex_priority := lit "Low" |}]
      partial_match_metric true = (tr, Return average)
    /\ (0 <= average /\ average <= 1)%Q.
Proof.
  refine (evaluate_module_average_bounds
            (fun _ ticket => SimpleTicketClassifier.forward
                               (answering "Network" "High") ticket)
            partial_match_metric true _ _ _ _).
  - intros i ticket. eexists _, _. reflexivity.
  - intros e p. unfold partial_match_metric.
    destruct (eqb _ _); destruct (eqb _ _); cbn [andb];
      split; unfold Qle; simpl; lia.
  - discriminate.
Defined.

(** The loop up to a call of the module that raises. *)
Lemma evaluate_loop_failure (module : module)
    (metric : example -> Prediction -> Q) (verbose : bool) (n_examples : Z)
    (before after : list example) (e : example) (tr_e : list Runtime.event)
    (err : exn) (i : nat) (total_score : Q) :
  (forall j ticket, j < i + List.length before ->
                    exists tr p, module j ticket = (tr, Return p)) ->
  module (i + List.length before) (ex_ticket e) = (tr_e, Raise err) ->
  snd (evaluate_loop module metric verbose n_examples i (before ++ e :: after)
                     total_score)
  = Raise err.
Proof.
  revert i total_score. induction before as [|b before IH];
    intros i total_score Hok Hfail.
  - cbn [app evaluate_loop]. simpl in Hfail. rewrite Nat.add_0_r in Hfail.
    rewrite Hfail. reflexivity.
  - cbn [app evaluate_loop].
    destruct (Hok i (ex_ticket b)) as (tr & p & ->); [simpl; lia|].
    specialize (IH (S i) (total_score + metric b p)%Q).
    destruct (evaluate_loop module metric verbose n_examples (S i)
                (before ++ e :: after) (total_score + metric b p)) as [tr' o].
    cbn [snd] in *. apply IH.
    + intros j ticket Hj. apply Hok. simpl. lia.
    + replace (S i + List.length before) with (i + List.length (b :: before))
        by (simpl; lia). exact Hfail.
Qed.

(** X25. [evaluate_module] catches nothing: when the module answers the
    calls for the first examples and raises on the next one, that error is
    what [evaluate_module] raises, whatever examples come after it. *)
Theorem evaluate_module_propagates_failure (module : module)
    (metric : example -> Prediction -> Q) (verbose : bool)
    (before after : list example) (e : example) (tr_e : list Runtime.event)
    (err : exn) :
  (forall j ticket, j < List.length before ->
                    exists tr p, module j ticket = (tr, Return p)) ->
  module (List.length before) (ex_ticket e) = (tr_e, Raise err) ->
  snd (evaluate_module module (before ++ e :: after) metric verbose) = Raise err.
Proof.
  intros Hok Hfail. unfold evaluate_module.
  pose proof (evaluate_loop_failure module metric verbose
                (Z.of_nat (List.length (before ++ e :: after)))
                before after e tr_e err 0 0%Q Hok Hfail) as L.
  destruct (evaluate_loop module metric verbose _ 0 (before ++ e :: after) 0)
    as [tr o].
  cbn [snd] in L. subst o. reflexivity.
Qed.

Lemma evaluate_module_propagates_failure_witness :
  snd (evaluate_module
         (fun i ticket =>
            if i =? 1 then RetryTicketClassifier.forward
                           {| RetryTicketClassifier.max_retries := 1;
                              RetryTicketClassifier.initial_delay := 1 |}
                           (fun _ => failing "down") ticket
            else SimpleTicketClassifier.forward (answering "Network" "High") ticket)
         ([{| ex_ticket := vpn_ticket; ex_category := lit "Network";
              ex_priority := lit "High" |}]
          ++ {| ex_ticket := lit "printer"; ex_category := lit "Hardware";
                ex_priority := lit "Low" |}
          :: [{| ex_ticket := lit "mail"; ex_category := lit "Email";
                 ex_priority := lit "Low" |}])
         exact_match_metric false)
  = Raise (Exception (lit "Failed after 1 attempts: down")).
Proof.
  eapply evaluate_module_propagates_failure.
  - intros j ticket Hj. simpl in Hj.
    destruct j as [|j]; [|lia]. eexists _, _. reflexivity.
  - reflexivity.
Defined.

(** The verbose output changes neither the events of the module nor the
    result of the loop. *)
Lemma evaluate_loop_verbose (module : module)
    (metric : example -> Prediction -> Q) (n_examples : Z)
    (dataset : list example) (i : nat) (total_score : Q) :
  snd (evaluate_loop module metric true n_examples i dataset total_score)
  = snd (evaluate_loop module metric false n_examples i dataset total_score)
  /\ module_events
       (fst (evaluate_loop module metric true n_examples i dataset total_score))
     = module_events
         (fst (evaluate_loop module metric false n_examples i dataset total_score))
  /\ map Of_module
       (module_events
          (fst (evaluate_loop module metric false n_examples i dataset
                              total_score)))
     = fst (evaluate_loop module metric false n_examples i dataset total_score).
Proof.
  assert (M : forall tr, module_events (map Of_module tr) = tr).
  { induction tr as [|x tr IHtr]; [reflexivity|]. simpl. rewrite IHtr.
    reflexivity. }
  revert i total_score. induction dataset as [|e dataset IH]; intros i total_score.
  - simpl. auto.
  - cbn [evaluate_loop]. destruct (module i (ex_ticket e)) as [tr [p|err]].
    + specialize (IH (S i) (total_score + metric e p)%Q).
      destruct (evaluate_loop module metric true n_examples (S i) dataset
                  (total_score + metric e p)) as [tr1 o1].
      destruct (evaluate_loop module metric false n_examples (S i) dataset
                  (total_score + metric e p)) as [tr2 o2].
      cbn [fst snd] in *. destruct IH as (IH1 & IH2 & IH3).
      split; [exact IH1|]. unfold module_events in *.
      rewrite !flat_map_app. fold (module_events (map Of_module tr)).
      rewrite M. cbn [flat_map app]. rewrite IH2. split; [reflexivity|].
      rewrite map_app, IH3. reflexivity.
    + cbn [fst snd]. rewrite M. auto.
Qed.

(** X26. The verbose mode of [evaluate_module] only adds lines: it changes
    neither the score returned or the error raised, nor the events of the
    evaluated module; and without it no line is shown at all. *)
Theorem evaluate_module_verbose_only_shows (module : module)
    (dataset : list example) (metric : example -> Prediction -> Q) :
  snd (evaluate_module module dataset metric true)
  = snd (evaluate_module module dataset metric false)
  /\ module_events (fst (evaluate_module module dataset metric true))
     = module_events (fst (evaluate_module module dataset metric false))
  /\ map Of_module
       (module_events (fst (evaluate_module module dataset metric false)))
     = fst (evaluate_module module dataset metric false).
Proof.
  unfold evaluate_module.
  destruct (evaluate_loop_verbose module metric
              (Z.of_nat (List.length dataset)) dataset 0 0%Q) as (H1 & H2 & H3).
  destruct (evaluate_loop module metric true _ 0 dataset 0) as [tr1 o1].
  destruct (evaluate_loop module metric false _ 0 dataset 0) as [tr2 o2].
  cbn [fst snd] in *. subst o2.
  destruct o1 as [total|err]; [destruct (Z.of_nat (List.length dataset) =? 0)%Z|];
    cbn [fst snd]; auto.
Qed.

End EvaluationFacts.

(** ** fixes.py *)

Module FixesFacts.

Import Fixes.

Lemma first_reasoning_not_empty (prediction : attributes) (attrs : list str) :
  first_reasoning prediction attrs <> [].
Proof.
  induction attrs as [|attr attrs IH]; simpl; [discriminate|].
  destruct (prediction attr) as [[[|c s]|]|]; simpl; try exact IH.
  discriminate.
Qed.

(** The attribute found is the first one, in the order tried, that holds a
    string that is not empty. *)
Lemma first_reasoning_first (prediction : attributes) (attrs : list str) :
  (exists before attr after s,
     attrs = before ++ attr :: after
     /\ (forall a, In a before ->
                   prediction a = None \/ prediction a = Some None
                   \/ prediction a = Some (Some []))
     /\ prediction attr = Some (Some s)
     /\ first_reasoning prediction attrs = s /\ s <> [])
  \/ (first_reasoning prediction attrs = lit "Pas de raisonnement disponible"
      /\ forall attr, In attr attrs ->
                      prediction attr = None \/ prediction attr = Some None
                      \/ prediction attr = Some (Some [])).
Proof.
  induction attrs as [|attr attrs IH]; cbn [first_reasoning].
  - right. split; [reflexivity | intros attr []].
  - destruct (prediction attr) as [[[|c s]|]|] eqn:E; cbn [truthy str_of].
    2: { left. exists [], attr, attrs, (c :: s).
         repeat split; auto; [intros a [] | discriminate]. }
    all: destruct IH as [(b & a & af & s & -> & Hb & Hp & Hs & Hn) | [Hd Hall]];
      [ left; exists (attr :: b), a, af, s;
        repeat split; auto; intros a' [<- | Ha']; auto
      | right; split; [exact Hd|]; intros a [<- | Ha]; auto ].
Qed.

(** X27. [get_safe_reasoning] never returns the empty string: it returns
    the string held by the first of the four attributes it tries, in their
    order, that holds a string that is not empty, or else the fixed
    sentence, and it returns that sentence only when each of the four
    attributes is absent, [None] or empty. A rationale that is not empty is
    returned whatever the other attributes hold. *)
Theorem get_safe_reasoning_never_empty (prediction : attributes) :
  get_safe_reasoning prediction <> []
  /\ ((exists before attr after,
         [lit "rationale"; lit "reasoning"; lit "chain_of_thought"; lit "cot"]
         = before ++ attr :: after
         /\ In attr [lit "rationale"; lit "reasoning";
                     lit "chain_of_thought"; lit "cot"]
         /\ (forall a, In a before ->
                       prediction a = None \/ prediction a = Some None
                       \/ prediction a = Some (Some []))
         /\ prediction attr = Some (Some (get_safe_reasoning prediction)))
      \/ (get_safe_reasoning prediction = lit "Pas de raisonnement disponible"
          /\ forall attr,
               In attr [lit "rationale"; lit "reasoning";
                        lit "chain_of_thought"; lit "cot"] ->
               prediction attr = None \/ prediction attr = Some None
               \/ prediction attr = Some (Some [])))
  /\ (forall s, prediction (lit "rationale") = Some (Some s) -> s <> [] ->
                get_safe_reasoning prediction = s).
Proof.
  unfold get_safe_reasoning. split; [apply first_reasoning_not_empty|]. split.
  - destruct (first_reasoning_first prediction
                [lit "rationale"; lit "reasoning"; lit "chain_of_thought";
                 lit "cot"]) as [(b & a & af & s & Ea & Hb & Hp & Hs & _) | H].
    + left. exists b, a, af. split; [exact Ea|]. split.
      * rewrite Ea. apply in_elt.
      * split; [exact Hb|]. rewrite Hs. exact Hp.
    + right. exact H.
  - intros s Hs Hn. cbn [first_reasoning]. rewrite Hs.
    destruct s; [congruence | reflexivity].
Qed.

Lemma get_safe_reasoning_never_empty_witness :
  get_safe_reasoning
    (fun attr => if eqb attr (lit "rationale") then Some (Some (lit "VPN outage"))
                 else if eqb attr (lit "cot") then Some (Some (lit "other"))
                 else None)
  = lit "VPN outage".
Proof.
  refine (proj2 (proj2 (get_safe_reasoning_never_empty _)) (lit "VPN outage") _ _).
  - reflexivity.
  - discriminate.
Defined.

End FixesFacts.
